(** * resize-image: the dimension planner and the quality-search loop

    A shallow embedding of [src/index.ts] and [src/storage.ts].  The
    image codec ([sharp]), the Bun runtime and the path helpers are
    collaborators of the program; they enter the development as
    interfaces, and the theorems hold for every implementation of them.

    JavaScript numbers are IEEE-754 binary64 values.  A finite binary64
    value is modelled by the rational number it denotes, and every
    arithmetic operation rounds its exact result to the nearest
    representable value (ties to even), see [binary64]. *)

From Stdlib Require Import ZArith QArith Qround Qabs Qpower Lia Lqa List Ascii String Bool.
From Stdlib Require Qcanon.
Import ListNotations.

Open Scope Z_scope.

(** ** JavaScript numbers *)

Module JS.

(** [2^k] for an integer exponent. *)
Definition pow2 (k : Z) : Q := Qpower (2 # 1) k.

(** [floor (log2 q)] for a positive rational [q]. *)
Definition ilog2 (q : Q) : Z :=
  let k := Z.log2 (Qnum q) - Z.log2 (Zpos (Qden q)) in
  if Qle_bool (pow2 k) q then k else k - 1.

(** Nearest integer, ties to the even one. *)
Definition roundHalfEven (q : Q) : Z :=
  let f := Qfloor q in
  match Qcompare (q - inject_Z f) (1 # 2) with
  | Lt => f
  | Gt => f + 1
  | Eq => if Z.even f then f else f + 1
  end.

(** Rounding of an exact result to binary64: 53 significant bits, ties to
    even, gradual underflow below [2^-1022].  Overflow to infinity is not
    represented; every value the program computes stays far below
    [2^1024].  [ulpExponent a] is the exponent of the unit in the last
    place of a positive [a]. *)
Definition ulpExponent (a : Q) : Z := Z.max (ilog2 a - 52) (-1074).

Definition binary64 (q : Q) : Q :=
  match Qnum q with
  | Z0 => 0%Q
  | _ =>
    let a := Qabs q in
    let e := ulpExponent a in
    let m := roundHalfEven (a / pow2 e) in
    let r := (inject_Z m * pow2 e)%Q in
    Qred (if Qle_bool 0 q then r else - r)
  end.

Definition fmul (a b : Q) : Q := binary64 (a * b).
Definition fdiv (a b : Q) : Q := binary64 (a / b).
Definition fsub (a b : Q) : Q := binary64 (a - b).

(** [Math.round]: the integer nearest to [x], ties towards +infinity. *)
Definition Math_round (x : Q) : Z := Qfloor (x + (1 # 2)).

Definition Math_max (a b : Q) : Q := if Qle_bool a b then b else a.
Definition Math_min (a b : Z) : Z := Z.min a b.
Definition gt (a b : Q) : bool := negb (Qle_bool a b).

(** The value of the numeric literal [0.8]. *)
Definition lit_0_8 : Q := Eval vm_compute in binary64 (8 # 10).

(** An integer below [2^53] is its own binary64 value. *)
Definition num (z : Z) : Q := inject_Z z.

Definition isInteger (x : Q) : bool := Qeq_bool x (inject_Z (Qfloor x)).

End JS.

(** ** Configuration constants ([src/index.ts], lines 5-11) *)

Definition ORIGINAL_FOLDER : string := "./original"%string.
Definition OUTPUT_FOLDER : string := "./output"%string.
Definition MAX_FILE_SIZE : Z := 500 * 1024.
Definition MAX_DIMENSION : Z := 1024.
Definition SUPPORTED_FORMATS : list string :=
  [".jpg"; ".jpeg"; ".png"; ".webp"; ".tiff"; ".bmp"]%string.
Definition maxAttempts : Z := 10.

(** ** Dimension planner ([resizeImage], lines 53-69)

    [width] and [height] are the integers read from the metadata.
    [Math.round (a / b)] on positive integers is [roundDiv a b], the
    nearest integer to the exact quotient with ties upwards: by lemma
    [JSFacts.planner_quotient_binary64] the binary64 computation
    [Math.round((other * MAX_DIMENSION) / side)] has this value for all
    sides below [2^26]. *)

Definition roundDiv (a b : Z) : Z := (2 * a + b) / (2 * b).

Definition planDimensions (maxDim width height : Z) : Z * Z :=
  if width >? height then
    if width >? maxDim
    then (maxDim, roundDiv (height * maxDim) width)
    else (width, height)
  else
    if height >? maxDim
    then (roundDiv (width * maxDim) height, maxDim)
    else (width, height).

Definition newDimensions : Z -> Z -> Z * Z := planDimensions MAX_DIMENSION.

(** [r] is the integer nearest to the exact quotient [a / b], the upper one
    on a tie: [a/b - 1/2 < r <= a/b + 1/2]. *)
Definition nearestTo (r a b : Z) : Prop :=
  2 * a - b < 2 * r * b <= 2 * a + b.

(** ** Data of the encoder loop *)

Definition Buffer : Type := list Byte.byte.
Definition Error : Type := string.

Definition byteLength (b : Buffer) : Z := Z.of_nat (List.length b).

Inductive result (A : Type) : Type :=
| Ok (a : A)
| Throw (e : Error).
Arguments Ok {A} a.
Arguments Throw {A} e.

(** The output options handed to the codec before [toBuffer]. *)
Inductive OutputOptions : Type :=
| JpegOptions (quality : Q) (mozjpeg : bool)
| PngOptions (compressionLevel : Z) (quality : Q)
| WebpOptions (quality : Q)
| DefaultOptions.

(** Lines 90-102: the options chosen from the extension and the quality. *)
Definition pngCompressionLevel (quality : Q) : Z :=
  JS.Math_min 9
    (JS.Math_round
       (JS.fdiv (JS.fmul (JS.num 9) (JS.fsub (JS.num 100) quality)) (JS.num 100))).

Definition outputOptions (ext : string) (quality : Q) : OutputOptions :=
  if String.eqb ext ".jpg" || String.eqb ext ".jpeg" then JpegOptions quality true
  else if String.eqb ext ".png" then PngOptions (pngCompressionLevel quality) quality
  else if String.eqb ext ".webp" then WebpOptions quality
  else DefaultOptions.

(** Line 108: [Math.max(10, quality * 0.8)]. *)
Definition decay (quality : Q) : Q :=
  JS.Math_max (JS.num 10) (JS.fmul quality JS.lit_0_8).

Inductive LogLine : Type :=
| LogOutputReady
| LogErrorCreatingOutput (e : Error)
| LogProcessing (inputPath : string)
| LogAdjusting (quality : Q) (attempts : Z)
| LogWritten (inputPath outputPath : string)
| LogSize (originalSize newSize : Z)
| LogDimensions (width height newWidth newHeight : Z)
| LogQuality (quality : Q)
| LogErrorProcessing (inputPath : string) (e : Error)
| LogStarting
| LogFolderUnreadable
| LogNoImages
| LogFound (n : Z)
| LogFailedFile (fileName : string) (e : Error)
| LogCompleted
| LogSuccessCount (n : Z)
| LogFailedCount (n : Z)
| LogErrorDuring (e : Error).

(** One pass through the body of the [do ... while] loop. *)
Record Attempt : Type := mkAttempt {
  a_number : Z;               (* the value of [attempts] after [attempts++] *)
  a_quality : Q;              (* the value of [quality] when encoding *)
  a_options : OutputOptions;  (* what the codec was asked for *)
  a_output : result Buffer    (* what [toBuffer] gave *)
}.

(** How the loop is left: [toBuffer] threw, or the loop ended with the
    variables [buffer], [quality] and [attempts] as given. *)
Inductive LoopExit : Type :=
| Threw (e : Error)
| Finished (buffer : Buffer) (quality : Q) (attempts : Z).

Record LoopRun : Type := mkRun {
  run_trace : list Attempt;
  run_console : list LogLine;
  run_exit : LoopExit
}.

Section Encoder.

(** [toBuffer] of the pipeline of one image: the input and the resize box
    are fixed during the loop, only the output options vary. *)
Variable toBuffer : OutputOptions -> result Buffer.
Variable ext : string.  (* [getExtension(outputPath)] *)

Definition overBudget (buffer : Buffer) : bool := byteLength buffer >? MAX_FILE_SIZE.

(** Lines 77-117.  [fuel] bounds the number of passes; [None] is a loop
    that has not ended when the fuel is spent. *)
Fixpoint encodeLoop (fuel : nat) (quality : Q) (attempts : Z) : option LoopRun :=
  match fuel with
  | O => None
  | S fuel' =>
    let attempts := attempts + 1 in
    let options := outputOptions ext quality in
    let here := mkAttempt attempts quality options (toBuffer options) in
    match toBuffer options with
    | Throw e => Some (mkRun [here] [] (Threw e))
    | Ok buffer =>
      if overBudget buffer && JS.gt quality (JS.num 10) then
        let quality := decay quality in
        let line := LogAdjusting quality attempts in
        if overBudget buffer && (attempts <? maxAttempts) && JS.gt quality (JS.num 10)
        then
          match encodeLoop fuel' quality attempts with
          | Some r => Some (mkRun (here :: run_trace r) (line :: run_console r) (run_exit r))
          | None => None
          end
        else Some (mkRun [here] [line] (Finished buffer quality attempts))
      else (* break *)
        Some (mkRun [here] [] (Finished buffer quality attempts))
    end
  end.

(** Lines 71-75: the initial values of [quality] and [attempts]. *)
Definition initialQuality : Q := JS.num 95.

Definition qualitySearch (fuel : nat) : option LoopRun :=
  encodeLoop fuel initialQuality 0.

End Encoder.

(** ** The quality schedule

    The loop starts at 95 and only ever replaces [quality] by
    [decay quality], so the value used by attempt [k + 1] is the [k]-th
    iterate of [decay]. *)

Definition qualityAt (k : nat) : Q := Nat.iter k decay initialQuality.

Section Runs.

Variable toBuffer : OutputOptions -> result Buffer.
Variable ext : string.

Definition optionsAt (k : nat) : OutputOptions := outputOptions ext (qualityAt k).

Definition attemptAt (k : nat) : Attempt :=
  mkAttempt (Z.of_nat k + 1) (qualityAt k) (optionsAt k) (toBuffer (optionsAt k)).

(** The state in which the loop is left when pass [k + 1] is its last. *)
Definition exitAt (k : nat) : LoopExit :=
  match toBuffer (optionsAt k) with
  | Throw e => Threw e
  | Ok b =>
    Finished b (if overBudget b then qualityAt (S k) else qualityAt k)
             (Z.of_nat k + 1)
  end.

(** Pass [k + 1] ends with an encoding above the byte budget. *)
Definition retryAt (k : nat) : Prop :=
  exists b, toBuffer (optionsAt k) = Ok b /\ overBudget b = true.

(** The runs of the loop that starts its pass number [k + 1]. *)
Inductive RunFrom (k : nat) : LoopRun -> Prop :=
| RunThrew e :
    toBuffer (optionsAt k) = Throw e ->
    RunFrom k (mkRun [attemptAt k] [] (Threw e))
| RunFits b :
    toBuffer (optionsAt k) = Ok b -> overBudget b = false ->
    RunFrom k (mkRun [attemptAt k] [] (Finished b (qualityAt k) (Z.of_nat k + 1)))
| RunCeiling b :
    toBuffer (optionsAt k) = Ok b -> overBudget b = true -> k = 9%nat ->
    RunFrom k (mkRun [attemptAt k] [LogAdjusting (qualityAt 10) 10]
                     (Finished b (qualityAt 10) 10))
| RunRetry b r :
    toBuffer (optionsAt k) = Ok b -> overBudget b = true -> (k < 9)%nat ->
    RunFrom (S k) r ->
    RunFrom k (mkRun (attemptAt k :: run_trace r)
                     (LogAdjusting (qualityAt (S k)) (Z.of_nat k + 1) :: run_console r)
                     (run_exit r)).

End Runs.

(** ** The world of the program

    [FS] is the state of the file system (or of whatever the storage
    provider writes to); the console is the list of the lines printed so
    far.  A computation either returns, or throws, in both cases leaving a
    world behind, or it has not ended when the fuel of the loop is spent. *)

Record Metadata : Type := mkMetadata {
  md_width : option Z;   (* [undefined] is [None] *)
  md_height : option Z
}.

Section World.

Context {FS : Type}.

Record World : Type := mkWorld {
  fs : FS;
  console : list LogLine
}.

Inductive outcome (A : Type) : Type :=
| Returns (a : A) (w : World)
| Throws (e : Error) (w : World)
| Diverges.
Arguments Returns {A} a w.
Arguments Throws {A} e w.
Arguments Diverges {A}.

Definition M (A : Type) : Type := World -> outcome A.

Definition ret {A} (a : A) : M A := fun w => Returns a w.
Definition throw {A} (e : Error) : M A := fun w => Throws e w.

Definition bind {A B} (c : M A) (k : A -> M B) : M B :=
  fun w =>
    match c w with
    | Returns a w' => k a w'
    | Throws e w' => Throws e w'
    | Diverges => Diverges
    end.

(** [try { c } catch (error) { handler error }] *)
Definition tryCatch {A} (c : M A) (handler : Error -> M A) : M A :=
  fun w =>
    match c w with
    | Returns a w' => Returns a w'
    | Throws e w' => handler e w'
    | Diverges => Diverges
    end.

Definition log (l : LogLine) : M unit :=
  fun w => Returns tt (mkWorld (fs w) (console w ++ [l])).

Definition logs (ls : list LogLine) : M unit :=
  fun w => Returns tt (mkWorld (fs w) (console w ++ ls)).

(** Lifting of a collaborator that reads the file system, and of one that
    changes it. *)
Definition reading {A} (f : FS -> result A) : M A :=
  fun w =>
    match f (fs w) with
    | Ok a => Returns a w
    | Throw e => Throws e w
    end.

Definition writing {A} (f : FS -> result A * FS) : M A :=
  fun w =>
    let '(r, fs') := f (fs w) in
    match r with
    | Ok a => Returns a (mkWorld fs' (console w))
    | Throw e => Throws e (mkWorld fs' (console w))
    end.

Definition worldOf {A} (o : outcome A) : option World :=
  match o with
  | Returns _ w => Some w
  | Throws _ w => Some w
  | Diverges => None
  end.

Local Notation "x <- c ;; k" := (bind c (fun x => k))
  (at level 61, c at next level, right associativity).
Local Notation "c ;; k" := (bind c (fun _ => k))
  (at level 61, right associativity).

(** *** [src/storage.ts] *)

Class StorageProvider : Type := {
  write : string -> Buffer -> FS -> result unit * FS;
  exists_ : string -> FS -> result bool;
  getSize : string -> FS -> result Z;
  ensureDestination : string -> FS -> result unit * FS
}.

(** The part of the Bun runtime that the program calls. *)
Class Bun : Type := {
  Bun_write : string -> Buffer -> FS -> result unit * FS;
  Bun_file_exists : string -> FS -> result bool;
  Bun_file_size : string -> FS -> result Z;
  Bun_Glob_scan : string -> FS -> result (list string)
}.

Fixpoint endsWithSlash (s : string) : bool :=
  match s with
  | EmptyString => false
  | String c EmptyString => Ascii.eqb c "/"%char
  | String _ rest => endsWithSlash rest
  end.

#[local] Instance LocalFileSystemStorage `{Bun} : StorageProvider := {
  write destination data := Bun_write destination data;
  exists_ destination := Bun_file_exists destination;
  getSize destination := Bun_file_size destination;
  ensureDestination destination :=
    let keepFile :=
      if endsWithSlash destination
      then (destination ++ ".gitkeep")%string
      else (destination ++ "/.gitkeep")%string in
    Bun_write keepFile []
}.

(** *** [src/index.ts] *)

(** The image library and the path helpers. *)
Class Sharp : Type := {
  sharp_metadata : string -> FS -> result Metadata;
  (* [sharp(input).resize(w, h, {lanczos3, inside, withoutEnlargement})]
     with the output options set, then [toBuffer()] *)
  sharp_toBuffer : string -> Z -> Z -> OutputOptions -> FS -> result Buffer
}.

Class Path : Type := {
  extname : string -> string;
  join : string -> string -> string;
  toLowerCase : string -> string
}.

Context `{Bun} `{Sharp} `{Path}.

Inductive StorageProviderType : Type := local.

Definition createStorageProvider (type : StorageProviderType) : StorageProvider :=
  match type with
  | local => LocalFileSystemStorage
  end.

Definition storage : StorageProvider := createStorageProvider local.

Definition ensureOutputFolder : M unit :=
  tryCatch
    (writing (@ensureDestination storage OUTPUT_FOLDER) ;;
     log LogOutputReady)
    (fun error => log (LogErrorCreatingOutput error) ;; throw error).

Definition getFileSize (filePath : string) : M Z :=
  reading (@getSize storage filePath).

Definition getExtension (fileName : string) : string :=
  toLowerCase (extname fileName).

Definition isSupportedImageFormat (fileName : string) : bool :=
  existsb (String.eqb (getExtension fileName)) SUPPORTED_FORMATS.

(** [!x] for an optional number: [undefined] and [0] are falsy. *)
Definition falsy (x : option Z) : bool :=
  match x with
  | Some n => n =? 0
  | None => true
  end.

(** The loop of [resizeImage] in the world: the codec reads the file
    system, the loop prints its lines. *)
Definition searchQuality (fuel : nat) (inputPath outputPath : string)
    (newWidth newHeight : Z) : M (Buffer * Q * Z) :=
  fun w =>
    match qualitySearch (fun o => sharp_toBuffer inputPath newWidth newHeight o (fs w))
                        (getExtension outputPath) fuel with
    | None => Diverges
    | Some r =>
      let w' := mkWorld (fs w) (console w ++ run_console r) in
      match run_exit r with
      | Threw e => Throws e w'
      | Finished buffer quality attempts => Returns (buffer, quality, attempts) w'
      end
    end.

Definition resizeImage (fuel : nat) (inputPath outputPath : string) : M unit :=
  tryCatch
    (log (LogProcessing inputPath) ;;
     metadata <- reading (sharp_metadata inputPath) ;;
     if falsy (md_width metadata) || falsy (md_height metadata)
     then throw "Unable to read image dimensions"%string
     else
       let width := match md_width metadata with Some n => n | None => 0 end in
       let height := match md_height metadata with Some n => n | None => 0 end in
       let '(newWidth, newHeight) := newDimensions width height in
       found <- searchQuality fuel inputPath outputPath newWidth newHeight ;;
       let '(buffer, quality, _) := found in
       writing (@write storage outputPath buffer) ;;
       originalSize <- getFileSize inputPath ;;
       let newSize := byteLength buffer in
       log (LogWritten inputPath outputPath) ;;
       log (LogSize originalSize newSize) ;;
       log (LogDimensions width height newWidth newHeight) ;;
       log (LogQuality quality))
    (fun error => log (LogErrorProcessing inputPath error) ;; throw error).

(** Lines 172-183: the loop over the image files, with its two counters. *)
Fixpoint processFiles (fuel : nat) (imageFiles : list string)
    (processedCount errorCount : Z) : M (Z * Z) :=
  match imageFiles with
  | [] => ret (processedCount, errorCount)
  | fileName :: rest =>
    counts <-
      tryCatch
        (let inputPath := join ORIGINAL_FOLDER fileName in
         let outputPath := join OUTPUT_FOLDER fileName in
         resizeImage fuel inputPath outputPath ;;
         ret (processedCount + 1, errorCount))
        (fun error =>
           log (LogFailedFile fileName error) ;;
           ret (processedCount, errorCount + 1)) ;;
    processFiles fuel rest (fst counts) (snd counts)
  end.

(** Lines 185-189. *)
Definition summary (processedCount errorCount : Z) : list LogLine :=
  [LogCompleted; LogSuccessCount processedCount]
  ++ (if errorCount >? 0 then [LogFailedCount errorCount] else []).

(** [processAllImages]; the value is the status of [process.exit], if it
    is called. *)
Definition processAllImages (fuel : nat) : M (option Z) :=
  tryCatch
    (log LogStarting ;;
     ensureOutputFolder ;;
     scanned <- (fun w => Returns (Bun_Glob_scan ORIGINAL_FOLDER (fs w)) w) ;;
     match scanned with
     | Throw _ => log LogFolderUnreadable ;; ret None
     | Ok files =>
       let imageFiles := filter isSupportedImageFormat files in
       if Z.of_nat (List.length imageFiles) =? 0
       then log LogNoImages ;; ret None
       else
         log (LogFound (Z.of_nat (List.length imageFiles))) ;;
         counts <- processFiles fuel imageFiles 0 0 ;;
         logs (summary (fst counts) (snd counts)) ;;
         ret None
     end)
    (fun error => log (LogErrorDuring error) ;; ret (Some 1)).

End World.

Arguments Returns {FS A} a w.
Arguments Throws {FS A} e w.
Arguments Diverges {FS A}.

(** ** The formulas of the specification, in exact arithmetic *)

(** [max(minQuality, floor(quality * 0.8))] with [minQuality = 10]. *)
Definition specDecay (quality : Q) : Q :=
  Qred (JS.Math_max (JS.num 10) (inject_Z (Qfloor (quality * (8 # 10))))).

(** [min(9, round(9 * (100 - quality) / 100))]. *)
Definition specCompressionLevel (quality : Q) : Z :=
  Z.min 9 (Qfloor (9 * (100 - quality) / 100 + (1 # 2))).

(** The extensions for which [outputOptions] passes the quality on. *)
Definition qualityExtensions : list string :=
  [".jpg"; ".jpeg"; ".png"; ".webp"]%string.

(** ** Sample codecs *)

(** 600000 bytes, above the budget of 512000. *)
Definition noise : Buffer := repeat Byte.x00 (Z.to_nat 600000).

(** A codec whose output is above the budget whatever it is asked. *)
Definition noisyCodec (o : OutputOptions) : result Buffer := Ok noise.

(** A JPEG codec whose output fits the budget from quality 50 downwards. *)
Definition thresholdCodec (o : OutputOptions) : result Buffer :=
  match o with
  | JpegOptions quality _ => if Qle_bool quality (50 # 1) then Ok [] else Ok noise
  | _ => Ok []
  end.

(** ** A sample world

    The file system is the list of the files written, the newest first.
    Every input is a 2000 x 1500 image, except [broken.png], which cannot
    be decoded; the codec is [thresholdCodec]. *)

Definition SampleFS : Type := list (string * Buffer).

Fixpoint sampleSize (path : string) (files : SampleFS) : result Z :=
  match files with
  | [] => Ok 2048000
  | (name, data) :: rest =>
    if String.eqb name path then Ok (byteLength data) else sampleSize path rest
  end.

#[local] Instance sampleBun : @Bun SampleFS := {
  Bun_write destination data files := (Ok tt, (destination, data) :: files);
  Bun_file_exists destination files := Ok true;
  Bun_file_size := sampleSize;
  Bun_Glob_scan folder files :=
    Ok ["a.jpg"; "notes.txt"; "broken.png"; "b.jpg"]%string
}.

#[local] Instance sampleSharp : @Sharp SampleFS := {
  sharp_metadata input files :=
    if String.eqb input "./original/broken.png"
    then Throw "Input file contains unsupported image format"%string
    else Ok (mkMetadata (Some 2000) (Some 1500));
  sharp_toBuffer input width height options files := thresholdCodec options
}.

(** [extname] of the sample names: the last four characters. *)
Definition sampleExtname (name : string) : string :=
  substring (String.length name - 4) 4 name.

#[local] Instance samplePath : Path := {
  extname := sampleExtname;
  join folder name := (folder ++ "/" ++ name)%string;
  toLowerCase name := name
}.

Definition sampleWorld : @World SampleFS := mkWorld [] [].

(** ** The planner as the program evaluates it

    Lines 57-69 with every arithmetic operation in binary64. *)

Definition jsNewDimensions (width height : Z) : Z * Z :=
  if width >? height then
    if width >? MAX_DIMENSION
    then (MAX_DIMENSION,
          JS.Math_round (JS.fdiv (JS.fmul (JS.num height) (JS.num MAX_DIMENSION))
                                 (JS.num width)))
    else (width, height)
  else
    if height >? MAX_DIMENSION
    then (JS.Math_round (JS.fdiv (JS.fmul (JS.num width) (JS.num MAX_DIMENSION))
                                 (JS.num height)),
          MAX_DIMENSION)
    else (width, height).

(** The line that the loop prints after an attempt, if any (lines 107-109). *)
Definition adjustingLine (a : Attempt) : list LogLine :=
  match a_output a with
  | Ok buffer =>
    if overBudget buffer
    then [LogAdjusting (decay (a_quality a)) (a_number a)]
    else []
  | Throw _ => []
  end.

(** Counting the lines of one kind on the console. *)
Definition isWrittenLine (l : LogLine) : bool :=
  match l with
  | LogWritten _ _ => true
  | _ => false
  end.

Definition isFailedFileLine (l : LogLine) : bool :=
  match l with
  | LogFailedFile _ _ => true
  | _ => false
  end.

Definition countLines (kind : LogLine -> bool) (lines : list LogLine) : Z :=
  Z.of_nat (List.length (filter kind lines)).

(** ** More sample collaborators *)

(** A runtime whose writes and size queries can be made to fail, with a
    given result of the directory scan. *)
Definition sampleBunWith (writeOk sizeOk : bool) (scan : result (list string)) :
    @Bun SampleFS := {|
  Bun_write destination data files :=
    if writeOk then (Ok tt, (destination, data) :: files)
    else (Throw "EACCES: permission denied"%string, files);
  Bun_file_exists destination files := Ok true;
  Bun_file_size path files :=
    if sizeOk then sampleSize path files
    else Throw "ENOENT: no such file"%string;
  Bun_Glob_scan folder files := scan
|}.

(** An image library with a given metadata answer and a given codec. *)
Definition sampleSharpWith (metadata : result Metadata)
    (codec : OutputOptions -> result Buffer) : @Sharp SampleFS := {|
  sharp_metadata input files := metadata;
  sharp_toBuffer input width height options files := codec options
|}.

(** A codec that fails on its third call of a search. *)
Definition failingCodec (o : OutputOptions) : result Buffer :=
  match o with
  | JpegOptions quality _ =>
    if Qle_bool quality (70 # 1)
    then Throw "VipsJpeg: out of memory"%string
    else Ok noise
  | _ => Throw "unsupported image format"%string
  end.

(** ** Codecs that take integer qualities only

    The codec of the program, sharp, takes the [quality] of its jpeg, png
    and webp outputs only as an integer between 1 and 100 and throws on
    any other value; it has no such option when the output keeps the
    format of the input. *)

Definition acceptsQuality (quality : Q) : bool :=
  JS.isInteger quality && Qle_bool 1 quality && Qle_bool quality 100.

Definition qualityOf (o : OutputOptions) : option Q :=
  match o with
  | JpegOptions quality _ => Some quality
  | PngOptions _ quality => Some quality
  | WebpOptions quality => Some quality
  | DefaultOptions => None
  end.

Definition integerQualityCodec (encode : OutputOptions -> Buffer)
    (o : OutputOptions) : result Buffer :=
  match qualityOf o with
  | Some quality =>
    if acceptsQuality quality then Ok (encode o)
    else Throw "Expected integer between 1 and 100 for quality"%string
  | None => Ok (encode o)
  end.

(** Every encoding is above the budget. *)
Definition strictNoisyCodec : OutputOptions -> result Buffer :=
  integerQualityCodec (fun _ => noise).

(** The encoding fits the budget from quality 70 downwards. *)
Definition strictThresholdCodec : OutputOptions -> result Buffer :=
  integerQualityCodec
    (fun o =>
       match qualityOf o with
       | Some quality => if Qle_bool quality (70 # 1) then [] else noise
       | None => noise
       end).

(** * Properties *)

(** ** The schedule *)

Lemma qualityAt_S (k : nat) : qualityAt (S k) = decay (qualityAt k).
Proof. reflexivity. Qed.

Lemma qualityAt_above_10 (k : nat) :
  (k <= 10)%nat -> JS.gt (qualityAt k) (JS.num 10) = true.
Proof.
  intros H.
  do 11 (destruct k as [|k]; [vm_compute; reflexivity|]).
  lia.
Qed.

Lemma qualityAt_decreases (k : nat) :
  (k <= 9)%nat -> (qualityAt (S k) < qualityAt k)%Q.
Proof.
  intros H.
  do 10 (destruct k as [|k]; [vm_compute; reflexivity|]).
  lia.
Qed.

(** ** The loop follows the schedule *)

Section RunFacts.

Variable toBuffer : OutputOptions -> result Buffer.
Variable ext : string.

Lemma encodeLoop_sound (fuel : nat) :
  forall k : nat, (k <= 9)%nat -> (10 - k <= fuel)%nat ->
  exists r, encodeLoop toBuffer ext fuel (qualityAt k) (Z.of_nat k) = Some r
            /\ RunFrom toBuffer ext k r.
Proof.
  induction fuel as [|fuel IH]; intros k Hk Hfuel; [lia|].
  cbn [encodeLoop]. fold (optionsAt ext k).
  destruct (toBuffer (optionsAt ext k)) as [b|e] eqn:E.
  - destruct (overBudget b) eqn:Hover; cbn [andb].
    + rewrite <- qualityAt_S, !qualityAt_above_10 by lia.
      destruct (Z.ltb_spec (Z.of_nat k + 1) maxAttempts) as [Hlt|Hge].
      * unfold maxAttempts in Hlt.
        destruct (IH (S k)) as [r [Hr Hspec]]; [lia|lia|].
        replace (Z.of_nat k + 1) with (Z.of_nat (S k)) by lia.
        rewrite Hr. eexists; split; [reflexivity|].
        replace (Z.of_nat (S k)) with (Z.of_nat k + 1) by lia.
        rewrite <- E. apply RunRetry with (b := b); auto; lia.
      * unfold maxAttempts in Hge. assert (k = 9%nat) by lia; subst k.
        eexists; split; [reflexivity|].
        rewrite <- E. apply RunCeiling with (b := b); auto.
    + eexists; split; [reflexivity|].
      rewrite <- E. apply RunFits; auto.
  - eexists; split; [reflexivity|].
    rewrite <- E. apply RunThrew; auto.
Qed.

Lemma qualitySearch_run (n : nat) :
  exists r, qualitySearch toBuffer ext (10 + n) = Some r
            /\ RunFrom toBuffer ext 0 r.
Proof. apply (encodeLoop_sound (10 + n) 0); lia. Qed.

(** A run from pass [k + 1] makes [n] passes in a row: all but the last
    end above the budget, and a last one above the budget is the tenth. *)
Lemma RunFrom_shape (k : nat) (r : LoopRun) :
  RunFrom toBuffer ext k r -> (k <= 9)%nat ->
  exists n : nat,
    (1 <= n)%nat /\ (k + n <= 10)%nat
    /\ run_trace r = map (attemptAt toBuffer ext) (seq k n)
    /\ (forall j, (k <= j < k + n - 1)%nat -> retryAt toBuffer ext j)
    /\ run_exit r = exitAt toBuffer ext (k + n - 1)
    /\ (retryAt toBuffer ext (k + n - 1) -> (k + n = 10)%nat).
Proof.
  induction 1 as [k e E|k b E Hb|k b E Hb Hk|k b r E Hb Hk Hr IH]; intros Hle.
  - exists 1%nat. replace (k + 1 - 1)%nat with k by lia.
    repeat split; try lia; try reflexivity.
    + unfold exitAt. rewrite E. reflexivity.
    + intros [b [E' _]]. congruence.
  - exists 1%nat. replace (k + 1 - 1)%nat with k by lia.
    repeat split; try lia; try reflexivity.
    + unfold exitAt. rewrite E, Hb. reflexivity.
    + intros [b' [E' Hb']]. congruence.
  - exists 1%nat. subst k.
    repeat split; try lia; try reflexivity.
    unfold exitAt. cbn [Nat.add Nat.sub]. rewrite E, Hb. reflexivity.
  - destruct IH as [n [Hn [Hkn [Htr [Hretry [Hexit Hlast]]]]]]; [lia|].
    exists (S n). replace (k + S n - 1)%nat with (S k + n - 1)%nat by lia.
    repeat split; try lia.
    + cbn [run_trace seq map]. rewrite Htr. reflexivity.
    + intros j Hj. destruct (Nat.eq_dec j k) as [->|Hne].
      * exists b. auto.
      * apply Hretry. lia.
    + exact Hexit.
    + intros Hl. specialize (Hlast Hl). lia.
Qed.

End RunFacts.

(** ** The dimension planner *)

Lemma roundDiv_nearest (a b : Z) :
  0 < b -> nearestTo (roundDiv a b) a b.
Proof.
  intros Hb. unfold nearestTo, roundDiv.
  pose proof (Z.div_mod (2 * a + b) (2 * b) ltac:(lia)) as Hdiv.
  pose proof (Z.mod_pos_bound (2 * a + b) (2 * b) ltac:(lia)) as Hmod.
  nia.
Qed.

Lemma nearestTo_le (r a b c : Z) :
  0 < b -> a <= c * b -> nearestTo r a b -> r <= c.
Proof. unfold nearestTo. intros Hb Hac [Hlo Hhi]. nia. Qed.

(** C1: for positive [width], [height] and bound, the planned size never
    exceeds the input on either axis; an image whose longest side is
    within the bound keeps its size; otherwise the longest planned side is
    the bound itself and the other side is the integer nearest to
    [otherSide * bound / constrainedSide] (at most half a pixel from the
    exact ratio), as in [plan(2000,1000,1024) = (1024,512)] and
    [plan(800,600,1024) = (800,600)]. *)
Theorem planDimensions_correct (maxDim width height : Z) :
  0 < width -> 0 < height -> 0 < maxDim ->
  let newWidth := fst (planDimensions maxDim width height) in
  let newHeight := snd (planDimensions maxDim width height) in
  (newWidth <= width /\ newHeight <= height)
  /\ (Z.max width height <= maxDim -> newWidth = width /\ newHeight = height)
  /\ (maxDim < Z.max width height ->
        Z.max newWidth newHeight = maxDim
        /\ (height <= width ->
              newWidth = maxDim /\ nearestTo newHeight (height * maxDim) width)
        /\ (width <= height ->
              newHeight = maxDim /\ nearestTo newWidth (width * maxDim) height))
  /\ newDimensions 2000 1000 = (1024, 512)
  /\ newDimensions 1000 2000 = (512, 1024)
  /\ newDimensions 800 600 = (800, 600).
Proof.
  intros Hw Hh Hm. unfold planDimensions.
  pose proof (roundDiv_nearest (height * maxDim) width Hw) as Nh.
  pose proof (roundDiv_nearest (width * maxDim) height Hh) as Nw.
  assert (Lw : width <= height -> roundDiv (width * maxDim) height <= maxDim).
  { intros. apply (nearestTo_le _ (width * maxDim) height); auto.
    rewrite (Z.mul_comm width). apply Z.mul_le_mono_nonneg_l; lia. }
  assert (Lh : height <= width -> roundDiv (height * maxDim) width <= maxDim).
  { intros. apply (nearestTo_le _ (height * maxDim) width); auto.
    rewrite (Z.mul_comm height). apply Z.mul_le_mono_nonneg_l; lia. }
  assert (Lw' : maxDim <= height -> roundDiv (width * maxDim) height <= width).
  { intros. apply (nearestTo_le _ (width * maxDim) height); auto.
    apply Z.mul_le_mono_nonneg_l; lia. }
  assert (Lh' : maxDim <= width -> roundDiv (height * maxDim) width <= height).
  { intros. apply (nearestTo_le _ (height * maxDim) width); auto.
    apply Z.mul_le_mono_nonneg_l; lia. }
  destruct (Z.gtb_spec width height) as [Hgt|Hle];
    [destruct (Z.gtb_spec width maxDim) | destruct (Z.gtb_spec height maxDim)];
    cbn [fst snd];
    (repeat split; try reflexivity; intros; try lia).
  all: unfold nearestTo in *; try lia.
  all: assert (width = height) by lia; subst height.
  - assert (roundDiv (width * maxDim) width <= maxDim) by auto with zarith.
    assert (maxDim - 1 < roundDiv (width * maxDim) width); [|lia].
    apply Z.mul_lt_mono_pos_r with (p := 2 * width); lia.
  - lia.
  - lia.
Qed.

(** The plan of a 2000 x 1500 image. *)
Lemma planDimensions_correct_witness :
  let newWidth := fst (planDimensions 1024 2000 1500) in
  let newHeight := snd (planDimensions 1024 2000 1500) in
  (newWidth <= 2000 /\ newHeight <= 1500)
  /\ (Z.max 2000 1500 <= 1024 -> newWidth = 2000 /\ newHeight = 1500)
  /\ (1024 < Z.max 2000 1500 ->
        Z.max newWidth newHeight = 1024
        /\ (1500 <= 2000 ->
              newWidth = 1024 /\ nearestTo newHeight (1500 * 1024) 2000)
        /\ (2000 <= 1500 ->
              newHeight = 1024 /\ nearestTo newWidth (2000 * 1024) 1500))
  /\ newDimensions 2000 1000 = (1024, 512)
  /\ newDimensions 1000 2000 = (512, 1024)
  /\ newDimensions 800 600 = (800, 600).
Proof. apply (planDimensions_correct 1024 2000 1500); lia. Defined.

(** ** Binary64 arithmetic on integers of image size *)

Module JSFacts.
Import JS.

Ltac q2z :=
  unfold Qeq, Qle, Qlt, Qminus, Qplus, Qopp, Qmult, inject_Z;
  cbn [Qnum Qden]; rewrite ?Pos2Z.inj_mul.

Lemma pow2_pos (k : Z) : (0 < pow2 k)%Q.
Proof. apply Qpower_0_lt. reflexivity. Qed.

Lemma pow2_le (j k : Z) : j <= k -> (pow2 j <= pow2 k)%Q.
Proof. intros H. apply Qpower_le_compat_l; [exact H | discriminate]. Qed.

Lemma pow2_nonneg_exp (k : Z) : 0 <= k -> (pow2 k == inject_Z (2 ^ k))%Q.
Proof. intros H. unfold pow2. rewrite Zpower_Qpower by exact H. reflexivity. Qed.

Lemma pow2_opp (k : Z) : (pow2 (- k) == / pow2 k)%Q.
Proof. apply Qpower_opp. Qed.

(** Division by a power of two with a non-positive exponent. *)
Lemma div_pow2_nonpos (q : Q) (e : Z) :
  e <= 0 -> (q / pow2 e == q * inject_Z (2 ^ (- e)))%Q.
Proof.
  intros He. unfold Qdiv. rewrite <- pow2_opp, pow2_nonneg_exp by lia.
  reflexivity.
Qed.

Lemma roundHalfEven_near (x : Q) :
  (x - (1 # 2) <= inject_Z (roundHalfEven x) <= x + (1 # 2))%Q.
Proof.
  unfold roundHalfEven.
  pose proof (Qfloor_le x) as Hlo. pose proof (Qlt_floor x) as Hhi.
  rewrite inject_Z_plus in Hhi. change (inject_Z 1) with 1%Q in Hhi.
  destruct (Qcompare_spec (x - inject_Z (Qfloor x)) (1 # 2)) as [Heq|Hlt|Hgt].
  - destruct (Z.even (Qfloor x)); rewrite ?inject_Z_plus;
      change (inject_Z 1) with 1%Q; split; lra.
  - split; lra.
  - rewrite inject_Z_plus. change (inject_Z 1) with 1%Q. split; lra.
Qed.

Lemma roundHalfEven_exact (x : Q) (z : Z) :
  (x == inject_Z z)%Q -> roundHalfEven x = z.
Proof.
  intros Hx. unfold roundHalfEven.
  assert (Hf : Qfloor x = z) by (rewrite Hx; apply Qfloor_Z).
  rewrite Hf.
  destruct (Qcompare_spec (x - inject_Z z) (1 # 2)) as [Heq|Hlt|Hgt];
    [lra | reflexivity | lra].
Qed.


(** The rounding of a positive number: the significand is the rounded
    quotient by the unit in the last place. *)
Lemma binary64_pos (q : Q) :
  (0 < q)%Q ->
  (binary64 q == inject_Z (roundHalfEven (q / pow2 (ulpExponent q)))
                 * pow2 (ulpExponent q))%Q.
Proof.
  intros Hq. destruct q as [[|n|n] d]; try discriminate Hq.
  unfold binary64, ulpExponent. cbn [Qnum].
  change (Qabs (Z.pos n # d)) with (Z.pos n # d).
  change (Qle_bool 0 (Z.pos n # d)) with true. cbn iota.
  apply Qred_correct.
Qed.

Lemma ilog2_upper (q : Q) (k : Z) :
  (0 < q)%Q -> 0 <= k -> (q < pow2 k)%Q -> ilog2 q < k.
Proof.
  intros Hq Hk Hlt. unfold ilog2.
  set (j := Z.log2 (Qnum q) - Z.log2 (Z.pos (Qden q))).
  destruct (Qle_bool (pow2 j) q) eqn:Htest.
  - apply Qle_bool_iff in Htest.
    apply (Qpower_lt_compat_l_inv (2 # 1)); [|reflexivity].
    apply Qle_lt_trans with q; assumption.
  - assert (j < k + 1); [|lia].
    rewrite pow2_nonneg_exp in Hlt by exact Hk.
    destruct q as [n d]. unfold Qlt in *. cbn [Qnum Qden inject_Z] in *.
    subst j. cbn [Qnum Qden].
    assert (Hn : 0 < n) by lia.
    pose proof (Z.log2_nonneg (Z.pos d)) as Hd0.
    pose proof (Z.log2_spec (Z.pos d) ltac:(lia)) as [_ Hd].
    assert (Z.log2 n < k + (Z.log2 (Z.pos d) + 1)); [|lia].
    apply Z.log2_lt_pow2; [exact Hn|].
    rewrite Z.pow_add_r by lia.
    rewrite Z.mul_1_r in Hlt.
    apply Z.lt_trans with (2 ^ k * Z.pos d); [exact Hlt|].
    apply Z.mul_lt_mono_pos_l; [apply Z.pow_pos_nonneg; lia|].
    replace (Z.succ (Z.log2 (Z.pos d))) with (Z.log2 (Z.pos d) + 1) in Hd by lia.
    exact Hd.
Qed.

(** A number that is a multiple of its last place is not changed. *)
Lemma binary64_exact (q : Q) (z : Z) :
  (0 < q)%Q -> (q / pow2 (ulpExponent q) == inject_Z z)%Q -> (binary64 q == q)%Q.
Proof.
  intros Hq Hz. rewrite (binary64_pos q Hq).
  rewrite (roundHalfEven_exact _ z Hz), <- Hz.
  field. apply Qnot_eq_sym, Qlt_not_eq, pow2_pos.
Qed.

(** The error of a rounding is at most half a unit in the last place. *)
Lemma binary64_error (q : Q) :
  (0 < q)%Q ->
  (q - pow2 (ulpExponent q) * (1 # 2) <= binary64 q
   <= q + pow2 (ulpExponent q) * (1 # 2))%Q.
Proof.
  intros Hq. rewrite (binary64_pos q Hq).
  pose proof (roundHalfEven_near (q / pow2 (ulpExponent q))) as [Hlo Hhi].
  pose proof (pow2_pos (ulpExponent q)) as Hp.
  set (u := pow2 (ulpExponent q)) in *.
  set (m := inject_Z (roundHalfEven (q / u))) in *.
  assert (Hne : ~ (u == 0)%Q) by lra.
  assert (Elo : ((q / u - (1 # 2)) * u == q - u * (1 # 2))%Q)
    by (field; exact Hne).
  assert (Ehi : ((q / u + (1 # 2)) * u == q + u * (1 # 2))%Q)
    by (field; exact Hne).
  rewrite <- Elo, <- Ehi.
  split; apply Qmult_le_compat_r; lra.
Qed.

Lemma Math_round_unique (y : Q) (r : Z) :
  (inject_Z r <= y + (1 # 2))%Q -> (y + (1 # 2) < inject_Z r + 1)%Q ->
  Math_round y = r.
Proof.
  intros Hlo Hhi. unfold Math_round.
  pose proof (Qfloor_le (y + (1 # 2))) as Hf.
  pose proof (Qlt_floor (y + (1 # 2))) as Hc.
  rewrite inject_Z_plus in Hc. change (inject_Z 1) with 1%Q in Hc.
  assert (H1 : (inject_Z r < inject_Z (Qfloor (y + (1 # 2))) + 1)%Q) by lra.
  assert (H2 : (inject_Z (Qfloor (y + (1 # 2))) < inject_Z r + 1)%Q) by lra.
  change 1%Q with (inject_Z 1) in H1, H2.
  rewrite <- inject_Z_plus, <- Zlt_Qlt in H1, H2. lia.
Qed.


Lemma binary64_reduced (q : Q) : binary64 q = Qred (binary64 q).
Proof.
  unfold binary64. destruct (Qnum q); [reflexivity | |];
    symmetry; apply Qred_complete, Qred_correct.
Qed.

(** Integers below [2^53] are binary64 values. *)
Lemma binary64_integer (z : Z) :
  0 < z < 2 ^ 53 -> binary64 (inject_Z z) = inject_Z z.
Proof.
  intros Hz.
  assert (Hq : (0 < inject_Z z)%Q) by (rewrite <- (Zlt_Qlt 0); lia).
  assert (He : ulpExponent (inject_Z z) <= 0).
  { assert (ilog2 (inject_Z z) < 53); [|unfold ulpExponent; lia].
    apply ilog2_upper; [exact Hq | lia |].
    rewrite pow2_nonneg_exp by lia. rewrite <- Zlt_Qlt. lia. }
  assert (Hexact : (binary64 (inject_Z z) == inject_Z z)%Q).
  { apply (binary64_exact _ (z * 2 ^ (- ulpExponent (inject_Z z))) Hq).
    rewrite div_pow2_nonpos by exact He.
    rewrite inject_Z_mult. reflexivity. }
  rewrite binary64_reduced. apply Qred_complete in Hexact. rewrite Hexact.
  apply Qcanon.Qred_identity. apply Z.gcd_1_r.
Qed.

Lemma fmul_integers (x y : Z) :
  0 < x -> 0 < y -> x * y < 2 ^ 53 -> fmul (num x) (num y) = num (x * y).
Proof.
  intros Hx Hy Hxy. apply (binary64_integer (x * y)). nia.
Qed.

(** [Math.round (a / b)] for integers of image size: the binary64
    quotient rounds to the same integer as the exact quotient. *)
Lemma Math_round_fdiv (a b : Z) :
  0 < a -> 0 < b < 2 ^ 26 -> a < b * 2 ^ 26 ->
  Math_round (fdiv (num a) (num b)) = roundDiv a b.
Proof.
  intros Ha Hb Hab. unfold fdiv, num.
  destruct b as [|pb|pb]; try lia.
  set (q := (inject_Z a / inject_Z (Z.pos pb))%Q).
  assert (Eq : (q == a # pb)%Q) by (symmetry; apply Qmake_Qdiv).
  assert (Hq : (0 < q)%Q) by (rewrite Eq; unfold Qlt; cbn; lia).
  assert (He : ulpExponent q <= -27).
  { assert (ilog2 q < 26); [|unfold ulpExponent; lia].
    apply ilog2_upper; [exact Hq | lia |].
    rewrite pow2_nonneg_exp, Eq by lia. unfold Qlt. cbn. lia. }
  pose proof (roundDiv_nearest a (Z.pos pb) ltac:(lia)) as [Hlo Hhi].
  set (r := roundDiv a (Z.pos pb)) in *.
  destruct (Z.eq_dec (2 * r * Z.pos pb) (2 * a + Z.pos pb)) as [Htie|Hno].
  - (* the exact quotient is a half-integer, and is not rounded *)
    assert (Ehalf : (q == inject_Z (2 * r - 1) * (1 # 2))%Q).
    { rewrite Eq. q2z. nia. }
    assert (Hexact : (binary64 q == q)%Q).
    { apply (binary64_exact _ ((2 * r - 1) * 2 ^ (- ulpExponent q - 1)) Hq).
      rewrite div_pow2_nonpos by lia.
      replace (- ulpExponent q) with (Z.succ (- ulpExponent q - 1)) at 1 by lia.
      rewrite Z.pow_succ_r by lia.
      set (t := 2 ^ (- ulpExponent q - 1)).
      rewrite !inject_Z_mult. change (inject_Z 2) with 2%Q.
      rewrite Ehalf. ring. }
    assert (Er : (inject_Z (2 * r - 1) == 2 * inject_Z r - 1)%Q)
      by (unfold Z.sub; rewrite inject_Z_plus, inject_Z_mult; reflexivity).
    apply Math_round_unique; lra.
  - (* otherwise it is far enough from every half-integer *)
    pose proof (binary64_error q Hq) as [Elo Ehi].
    pose proof (pow2_le _ _ He) as Hu.
    assert (E27 : (pow2 (-27) == 1 # 134217728)%Q) by reflexivity.
    set (c := (1 # (2 * pb))%Q).
    assert (Hc : (1 # 134217728 < c)%Q) by (unfold c; q2z; lia).
    assert (Qlo : (inject_Z r + c <= q + (1 # 2))%Q).
    { rewrite Eq. unfold c. q2z. nia. }
    assert (Qhi : (q + (1 # 2) <= inject_Z r + 1 - c)%Q).
    { rewrite Eq. unfold c. q2z. nia. }
    pose proof (pow2_pos (ulpExponent q)).
    apply Math_round_unique; lra.
Qed.


(** The quotient of the planner, as the program computes it: for sides and
    bound below [2^26] the product is exact and the rounded binary64
    quotient is [roundDiv]. *)
Lemma planner_quotient_binary64 (maxDim side other : Z) :
  0 < other <= side -> side < 2 ^ 26 -> 0 < maxDim < 2 ^ 26 ->
  Math_round (fdiv (fmul (num other) (num maxDim)) (num side))
  = roundDiv (other * maxDim) side.
Proof.
  intros Ho Hs Hm.
  assert (Hprod : 0 < other * maxDim < side * 2 ^ 26) by nia.
  rewrite fmul_integers by nia.
  apply Math_round_fdiv; lia.
Qed.

End JSFacts.

(** ** Facts about the schedule *)

Lemma qualityAt_range (k : nat) :
  (k <= 10)%nat -> (10 < qualityAt k)%Q /\ (qualityAt k <= 95)%Q.
Proof.
  intros H.
  do 11 (destruct k as [|k];
         [split; [vm_compute; reflexivity | vm_compute; discriminate]|]).
  lia.
Qed.

Lemma qualityAt_antitone (i j : nat) :
  (i <= j)%nat -> (j <= 10)%nat -> (qualityAt j <= qualityAt i)%Q.
Proof.
  induction 1 as [|j Hij IH]; intros Hj.
  - apply Qle_refl.
  - apply Qle_trans with (qualityAt j); [|apply IH; lia].
    apply Qlt_le_weak, qualityAt_decreases. lia.
Qed.

(** Only 95 and 76 are integers. *)
Lemma qualityAt_integer (k : nat) :
  (k <= 10)%nat -> JS.isInteger (qualityAt k) = (k <=? 1)%nat.
Proof.
  intros H.
  do 11 (destruct k as [|k]; [vm_compute; reflexivity|]).
  lia.
Qed.

(** On the schedule, the binary64 computation of the compression level
    gives the value of the exact formula. *)
Lemma pngCompressionLevel_exact (k : nat) :
  (k <= 10)%nat ->
  pngCompressionLevel (qualityAt k) = specCompressionLevel (qualityAt k).
Proof.
  intros H.
  do 11 (destruct k as [|k]; [vm_compute; reflexivity|]).
  lia.
Qed.

Lemma qualityAt_9 : qualityAt 9 = (897249631745233 # 70368744177664)%Q.
Proof. vm_compute. reflexivity. Qed.

Lemma qualityAt_10 : qualityAt 10 = (1435599410792373 # 140737488355328)%Q.
Proof. vm_compute. reflexivity. Qed.

Lemma overBudget_noise : overBudget noise = true.
Proof. vm_compute. reflexivity. Qed.

(** ** Reading a run *)

Lemma nth_error_seq_map {A} (f : nat -> A) (n : nat) :
  forall k i a, nth_error (map f (seq k n)) i = Some a ->
                (i < n)%nat /\ a = f (k + i)%nat.
Proof.
  induction n as [|n IH]; intros k i a Hnth.
  - destruct i; discriminate.
  - destruct i as [|i]; cbn in Hnth.
    + injection Hnth as <-. split; [lia|]. f_equal. lia.
    + apply IH in Hnth. destruct Hnth as [Hi ->]. split; [lia|].
      f_equal. lia.
Qed.

Lemma seq_map_nth_error {A} (f : nat -> A) (n : nat) :
  forall k i, (i < n)%nat -> nth_error (map f (seq k n)) i = Some (f (k + i)%nat).
Proof.
  induction n as [|n IH]; intros k i Hi; [lia|].
  destruct i as [|i]; cbn.
  - f_equal. f_equal. lia.
  - rewrite IH by lia. f_equal. f_equal. lia.
Qed.

Lemma In_seq_map {A} (f : nat -> A) (n k : nat) (a : A) :
  In a (map f (seq k n)) -> exists j, (k <= j < k + n)%nat /\ a = f j.
Proof.
  intros Hin. apply in_map_iff in Hin. destruct Hin as [j [<- Hj]].
  apply in_seq in Hj. exists j. split; [lia|reflexivity].
Qed.

Section SearchFacts.

Variable toBuffer : OutputOptions -> result Buffer.
Variable ext : string.

(** The whole search: [m] passes that follow the schedule. *)
Lemma qualitySearch_shape (n : nat) :
  exists (r : LoopRun) (m : nat),
    qualitySearch toBuffer ext (10 + n) = Some r
    /\ (1 <= m <= 10)%nat
    /\ run_trace r = map (attemptAt toBuffer ext) (seq 0 m)
    /\ (forall j, (j < m - 1)%nat -> retryAt toBuffer ext j)
    /\ run_exit r = exitAt toBuffer ext (m - 1)
    /\ (retryAt toBuffer ext (m - 1) -> m = 10%nat).
Proof.
  destruct (qualitySearch_run toBuffer ext n) as [r [Hr Hrun]].
  destruct (RunFrom_shape _ _ _ _ Hrun ltac:(lia))
    as [m [Hm [Hm' [Htr [Hretry [Hexit Hlast]]]]]].
  exists r, m. cbn [Nat.add] in *.
  repeat split; auto; try lia.
  intros j Hj. apply Hretry. lia.
Qed.

(** When every pass ends above the budget there are ten of them. *)
Lemma qualitySearch_never_fits (n : nat) :
  (forall k, (k <= 9)%nat -> retryAt toBuffer ext k) ->
  exists (r : LoopRun) (b : Buffer),
    qualitySearch toBuffer ext (10 + n) = Some r
    /\ run_trace r = map (attemptAt toBuffer ext) (seq 0 10)
    /\ toBuffer (optionsAt ext 9) = Ok b
    /\ run_exit r = Finished b (qualityAt 10) 10.
Proof.
  intros Hover.
  destruct (qualitySearch_shape n) as [r [m [Hr [Hm [Htr [_ [Hexit Hlast]]]]]]].
  assert (m = 10%nat) by (apply Hlast, Hover; lia). subst m.
  destruct (Hover 9%nat ltac:(lia)) as [b [E Hb]].
  exists r, b. repeat split; auto.
  rewrite Hexit. cbn [Nat.sub]. unfold exitAt. rewrite E, Hb. reflexivity.
Qed.

End SearchFacts.

(** ** Searches with a codec that takes integer qualities only *)

Lemma acceptsQuality_schedule (k : nat) :
  (k <= 10)%nat -> acceptsQuality (qualityAt k) = (k <=? 1)%nat.
Proof.
  intros H.
  do 11 (destruct k as [|k]; [vm_compute; reflexivity|]).
  lia.
Qed.

Lemma qualityOf_optionsAt (ext : string) (k : nat) :
  In ext qualityExtensions -> qualityOf (optionsAt ext k) = Some (qualityAt k).
Proof.
  intros [<-|[<-|[<-|[<-|[]]]]]; reflexivity.
Qed.

(** With a quality extension such a codec encodes the first two attempts
    and rejects the third. *)
Lemma integerQualityCodec_schedule (encode : OutputOptions -> Buffer)
    (ext : string) (k : nat) :
  In ext qualityExtensions -> (k <= 10)%nat ->
  integerQualityCodec encode (optionsAt ext k)
  = if (k <=? 1)%nat then Ok (encode (optionsAt ext k))
    else Throw "Expected integer between 1 and 100 for quality"%string.
Proof.
  intros Hext Hk. unfold integerQualityCodec.
  rewrite (qualityOf_optionsAt ext k Hext), (acceptsQuality_schedule k Hk).
  reflexivity.
Qed.

Section ThrowingSearch.

Variable toBuffer : OutputOptions -> result Buffer.
Variable ext : string.

(** A search whose first [k] attempts end above the budget and whose next
    attempt throws. *)
Lemma qualitySearch_throws_at (n k : nat) (e : Error) :
  (k <= 9)%nat ->
  (forall j, (j < k)%nat -> retryAt toBuffer ext j) ->
  toBuffer (optionsAt ext k) = Throw e ->
  exists r : LoopRun,
    qualitySearch toBuffer ext (10 + n) = Some r
    /\ run_trace r = map (attemptAt toBuffer ext) (seq 0 (S k))
    /\ run_exit r = Threw e.
Proof.
  intros Hk Hbefore Hthrow.
  destruct (qualitySearch_shape toBuffer ext n)
    as [r [m [Hr [Hm [Htr [Hretry [Hexit Hlast]]]]]]].
  assert (m = S k).
  { destruct (Nat.lt_trichotomy (m - 1) k) as [Hlt|[Heq|Hgt]].
    - specialize (Hlast (Hbefore _ Hlt)). lia.
    - lia.
    - destruct (Hretry k Hgt) as [b [E _]]. congruence. }
  subst m. exists r. split; [exact Hr|]. split; [exact Htr|].
  rewrite Hexit. replace (S k - 1)%nat with k by lia.
  unfold exitAt. rewrite Hthrow. reflexivity.
Qed.

End ThrowingSearch.

(** Two encodings above the budget, then the third attempt is rejected. *)
Lemma strict_search_throws (encode : OutputOptions -> Buffer) (ext : string) :
  In ext qualityExtensions ->
  (forall k, (k <= 1)%nat -> overBudget (encode (optionsAt ext k)) = true) ->
  exists r : LoopRun,
    qualitySearch (integerQualityCodec encode) ext 10 = Some r
    /\ run_trace r = map (attemptAt (integerQualityCodec encode) ext) (seq 0 3)
    /\ run_exit r = Threw "Expected integer between 1 and 100 for quality"%string.
Proof.
  intros Hext Hover.
  apply (qualitySearch_throws_at (integerQualityCodec encode) ext 0 2); [lia | |].
  - intros j Hj. exists (encode (optionsAt ext j)).
    rewrite (integerQualityCodec_schedule encode ext j Hext) by lia.
    split; [|apply Hover; lia].
    destruct j as [|[|j]]; [reflexivity | reflexivity | lia].
  - rewrite (integerQualityCodec_schedule encode ext 2 Hext) by lia. reflexivity.
Qed.

(** ** The quality update *)

(** C2: the program at a [.jpg] output whose encodings are above the
    budget, with a codec that takes integer qualities only.  The second
    attempt, at quality 76, ends above the budget with fewer than 10
    attempts made.  The next quality of the claim is
    [max(10, floor(76 * 0.8)) = 60], which the codec would encode; line
    108 has no [floor] and gives 60.800000000000004, not an integer, which
    the codec rejects: the search ends with that error at the third
    attempt. *)
Theorem next_quality_not_floored :
  exists (r : LoopRun) (a a' : Attempt) (e : Error),
    qualitySearch strictNoisyCodec ".jpg" 10 = Some r
    /\ nth_error (run_trace r) 1 = Some a
    /\ nth_error (run_trace r) 2 = Some a'
    /\ a_output a = Ok noise /\ overBudget noise = true
    /\ JS.gt (a_quality a) (JS.num 10) = true
    /\ a_number a < maxAttempts
    /\ a_quality a = 76%Q
    /\ specDecay (a_quality a) = 60%Q
    /\ strictNoisyCodec (outputOptions ".jpg" 60) = Ok noise
    /\ a_quality a' = (8556839292003943 # 140737488355328)%Q
    /\ ~ (a_quality a' == specDecay (a_quality a))%Q
    /\ JS.isInteger (a_quality a') = false
    /\ a_options a' = JpegOptions (a_quality a') true
    /\ a_output a' = Throw e
    /\ run_exit r = Threw e.
Proof.
  destruct (strict_search_throws (fun _ => noise) ".jpg")
    as [r [Hr [Htr Hexit]]].
  { cbn. auto. }
  { intros k _. apply overBudget_noise. }
  assert (Hin : In ".jpg"%string qualityExtensions) by (cbn; auto).
  exists r, (attemptAt strictNoisyCodec ".jpg" 1),
         (attemptAt strictNoisyCodec ".jpg" 2),
         "Expected integer between 1 and 100 for quality"%string.
  assert (H1 : strictNoisyCodec (optionsAt ".jpg" 1) = Ok noise)
    by (unfold strictNoisyCodec;
        rewrite (integerQualityCodec_schedule _ ".jpg" 1 Hin) by lia; reflexivity).
  assert (H2 : strictNoisyCodec (optionsAt ".jpg" 2)
               = Throw "Expected integer between 1 and 100 for quality"%string)
    by (unfold strictNoisyCodec;
        rewrite (integerQualityCodec_schedule _ ".jpg" 2 Hin) by lia; reflexivity).
  split; [exact Hr|]. fold strictNoisyCodec in Htr. rewrite Htr.
  cbn [attemptAt a_output a_quality a_number a_options].
  rewrite H1, H2.
  split; [reflexivity|]. split; [reflexivity|]. split; [reflexivity|].
  split; [apply overBudget_noise|].
  split; [vm_compute; reflexivity|]. split; [vm_compute; reflexivity|].
  split; [vm_compute; reflexivity|]. split; [vm_compute; reflexivity|].
  split; [reflexivity|].
  split; [vm_compute; reflexivity|]. split; [vm_compute; discriminate|].
  split; [vm_compute; reflexivity|].
  split; [reflexivity|]. split; [reflexivity | exact Hexit].
Qed.

(** ** Monotonicity and termination *)

(** C3: the search ends within 10 attempts, numbered 1, 2, ... in turn,
    and the quality never increases from one attempt to the next, nor from
    the last attempt to the final value of [quality]. *)
Theorem quality_nonincreasing_within_10_attempts
    (toBuffer : OutputOptions -> result Buffer) (ext : string) (n : nat) :
  exists r : LoopRun,
    qualitySearch toBuffer ext (10 + n) = Some r
    /\ (1 <= List.length (run_trace r) <= 10)%nat
    /\ (forall i a, nth_error (run_trace r) i = Some a ->
                    a_number a = Z.of_nat i + 1)
    /\ (forall i a a',
          nth_error (run_trace r) i = Some a ->
          nth_error (run_trace r) (S i) = Some a' ->
          (a_quality a' <= a_quality a)%Q)
    /\ (forall buffer quality attempts,
          run_exit r = Finished buffer quality attempts ->
          attempts = Z.of_nat (List.length (run_trace r))
          /\ forall a, In a (run_trace r) -> (quality <= a_quality a)%Q).
Proof.
  destruct (qualitySearch_shape toBuffer ext n)
    as [r [m [Hr [Hm [Htr [Hretry [Hexit Hlast]]]]]]].
  exists r. split; [exact Hr|]. rewrite Htr, length_map, length_seq.
  split; [lia|]. split; [|split].
  - intros i a Hnth. apply nth_error_seq_map in Hnth.
    destruct Hnth as [_ ->]. reflexivity.
  - intros i a a' Ha Ha'.
    apply nth_error_seq_map in Ha, Ha'.
    destruct Ha as [_ ->], Ha' as [Hi ->]. cbn [Nat.add attemptAt a_quality].
    apply (qualityAt_antitone i (S i)); lia.
  - intros buffer quality attempts Hfin.
    rewrite Hexit in Hfin. unfold exitAt in Hfin.
    destruct (toBuffer (optionsAt ext (m - 1))) as [b|e] eqn:E; [|discriminate].
    injection Hfin as <- <- <-. split; [lia|].
    intros a Hin. apply In_seq_map in Hin. destruct Hin as [j [Hj ->]].
    cbn [attemptAt a_quality].
    destruct (overBudget b) eqn:Hb.
    + assert (m = 10%nat) by (apply Hlast; exists b; auto). subst m.
      change (S (10 - 1)) with 10%nat.
      apply (qualityAt_antitone j 10); lia.
    + apply (qualityAt_antitone j (m - 1)); lia.
Qed.

(** ** Extensions without a quality setting *)

Lemma outputOptions_default (ext : string) (quality : Q) :
  ~ In ext qualityExtensions -> outputOptions ext quality = DefaultOptions.
Proof.
  intros Hnot. unfold outputOptions.
  destruct (String.eqb_spec ext ".jpg") as [->|_]; [elim Hnot; cbn; auto|].
  destruct (String.eqb_spec ext ".jpeg") as [->|_]; [elim Hnot; cbn; auto|].
  destruct (String.eqb_spec ext ".png") as [->|_]; [elim Hnot; cbn; auto|].
  destruct (String.eqb_spec ext ".webp") as [->|_]; [elim Hnot; cbn; auto 6|].
  reflexivity.
Qed.

(** C4, refuted as stated: a [.tiff] output whose default encoding is
    above the budget is encoded ten times, not once. *)
Lemma unsupported_extension_retries :
  ~ In ".tiff"%string qualityExtensions
  /\ exists r : LoopRun,
       qualitySearch noisyCodec ".tiff" 10 = Some r
       /\ List.length (run_trace r) = 10%nat
       /\ List.length (run_trace r) <> 1%nat
       /\ run_exit r = Finished noise (qualityAt 10) 10.
Proof.
  split.
  - cbn. intros [H|[H|[H|[H|[]]]]]; discriminate.
  - destruct (qualitySearch_never_fits noisyCodec ".tiff" 0)
      as [r [b [Hr [Htr [Hb Hexit]]]]].
    { intros k _. exists noise. split; [reflexivity | apply overBudget_noise]. }
    exists r. split; [exact Hr|]. rewrite Htr, length_map, length_seq.
    split; [reflexivity|]. split; [discriminate|].
    unfold noisyCodec in Hb. injection Hb as <-. exact Hexit.
Qed.

(** C4, as amended: when the output extension is none of jpg, jpeg, png
    and webp, every attempt is encoded with the codec's default settings;
    the search is otherwise the usual one: a single attempt when the first
    encoding fits the budget or fails, and ten attempts at the same default
    settings when it does not fit. *)
Theorem unsupported_extension_default_settings
    (toBuffer : OutputOptions -> result Buffer) (ext : string) (n : nat) :
  ~ In ext qualityExtensions ->
  exists r : LoopRun,
    qualitySearch toBuffer ext (10 + n) = Some r
    /\ (forall a, In a (run_trace r) ->
          a_options a = DefaultOptions /\ a_output a = toBuffer DefaultOptions)
    /\ (forall b, toBuffer DefaultOptions = Ok b -> overBudget b = false ->
          List.length (run_trace r) = 1%nat
          /\ run_exit r = Finished b initialQuality 1)
    /\ (forall e, toBuffer DefaultOptions = Throw e ->
          List.length (run_trace r) = 1%nat /\ run_exit r = Threw e)
    /\ (forall b, toBuffer DefaultOptions = Ok b -> overBudget b = true ->
          List.length (run_trace r) = 10%nat
          /\ run_exit r = Finished b (qualityAt 10) 10).
Proof.
  intros Hext.
  assert (Hopt : forall k, optionsAt ext k = DefaultOptions)
    by (intros; apply outputOptions_default; exact Hext).
  destruct (qualitySearch_shape toBuffer ext n)
    as [r [m [Hr [Hm [Htr [Hretry [Hexit Hlast]]]]]]].
  exists r. split; [exact Hr|].
  rewrite Htr, length_map, length_seq, Hexit.
  unfold exitAt, retryAt in *.
  split; [|split; [|split]].
  - intros a Hin. apply In_seq_map in Hin. destruct Hin as [j [_ ->]].
    cbn [attemptAt a_options a_output]. rewrite Hopt. auto.
  - intros b E Hb.
    assert (m = 1%nat) as ->.
    { destruct (Nat.eq_dec m 1) as [|Hne]; [assumption|].
      destruct (Hretry 0%nat ltac:(lia)) as [b' [E' Hb']].
      rewrite Hopt in E'. congruence. }
    cbn [Nat.sub]. rewrite Hopt, E, Hb. auto.
  - intros e E.
    assert (m = 1%nat) as ->.
    { destruct (Nat.eq_dec m 1) as [|Hne]; [assumption|].
      destruct (Hretry 0%nat ltac:(lia)) as [b' [E' Hb']].
      rewrite Hopt in E'. congruence. }
    cbn [Nat.sub]. rewrite Hopt, E. auto.
  - intros b E Hb.
    assert (m = 10%nat) as ->.
    { apply Hlast. exists b. rewrite Hopt. auto. }
    cbn [Nat.sub]. rewrite Hopt, E, Hb. auto.
Qed.

(** A [.bmp] output of the threshold codec. *)
Lemma unsupported_extension_default_settings_witness :
  exists r : LoopRun,
    qualitySearch thresholdCodec ".bmp" (10 + 0) = Some r
    /\ (forall a, In a (run_trace r) ->
          a_options a = DefaultOptions /\ a_output a = thresholdCodec DefaultOptions)
    /\ (forall b, thresholdCodec DefaultOptions = Ok b -> overBudget b = false ->
          List.length (run_trace r) = 1%nat
          /\ run_exit r = Finished b initialQuality 1)
    /\ (forall e, thresholdCodec DefaultOptions = Throw e ->
          List.length (run_trace r) = 1%nat /\ run_exit r = Threw e)
    /\ (forall b, thresholdCodec DefaultOptions = Ok b -> overBudget b = true ->
          List.length (run_trace r) = 10%nat
          /\ run_exit r = Finished b (qualityAt 10) 10).
Proof.
  apply (unsupported_extension_default_settings thresholdCodec ".bmp" 0).
  cbn. intros [H|[H|[H|[H|[]]]]]; discriminate.
Defined.

(** ** A search that never fits the budget *)

(** C5: the program at inputs whose every encoding is above the budget,
    with a codec that takes integer qualities only.  For a [.tiff] output,
    encoded at the default settings, the search ends after 10 attempts
    with [quality] at 10.200547328000006, not at 10: ten unfloored decays
    of 95 do not reach the floor.  For a [.jpg] output the search does not
    reach the tenth attempt: the third attempt, at quality
    60.800000000000004, is rejected and the search throws. *)
Theorem never_fits_quality_not_10 :
  overBudget noise = true
  /\ (exists r : LoopRun,
        qualitySearch strictNoisyCodec ".tiff" 10 = Some r
        /\ List.length (run_trace r) = 10%nat
        /\ (forall a, In a (run_trace r) -> a_output a = Ok noise)
        /\ run_exit r = Finished noise (1435599410792373 # 140737488355328) 10
        /\ ~ (1435599410792373 # 140737488355328 == 10)%Q)
  /\ (exists (r : LoopRun) (e : Error),
        qualitySearch strictNoisyCodec ".jpg" 10 = Some r
        /\ List.length (run_trace r) = 3%nat
        /\ (forall i a, (i < 2)%nat -> nth_error (run_trace r) i = Some a ->
                        a_output a = Ok noise)
        /\ run_exit r = Threw e).
Proof.
  split; [apply overBudget_noise|]. split.
  - assert (Hopt : forall k, strictNoisyCodec (optionsAt ".tiff" k) = Ok noise).
    { intros k. unfold optionsAt. rewrite outputOptions_default; [reflexivity|].
      cbn. intros [H|[H|[H|[H|[]]]]]; discriminate. }
    destruct (qualitySearch_never_fits strictNoisyCodec ".tiff" 0)
      as [r [b [Hr [Htr [Hb Hexit]]]]].
    { intros k _. exists noise. split; [apply Hopt | apply overBudget_noise]. }
    exists r. split; [exact Hr|]. rewrite Htr, length_map, length_seq.
    split; [reflexivity|]. split; [|split].
    + intros a Hin. apply In_seq_map in Hin. destruct Hin as [j [_ ->]].
      cbn [attemptAt a_output]. apply Hopt.
    + rewrite Hopt in Hb. injection Hb as <-.
      rewrite Hexit, qualityAt_10. reflexivity.
    + vm_compute. discriminate.
  - destruct (strict_search_throws (fun _ => noise) ".jpg")
      as [r [Hr [Htr Hexit]]].
    { cbn. auto. }
    { intros k _. apply overBudget_noise. }
    exists r, "Expected integer between 1 and 100 for quality"%string.
    split; [exact Hr|]. rewrite Htr, length_map, length_seq.
    split; [reflexivity|]. split; [|exact Hexit].
    intros i a Hi Hnth. apply nth_error_seq_map in Hnth.
    destruct Hnth as [_ ->]. cbn [Nat.add attemptAt a_output].
    rewrite (integerQualityCodec_schedule _ ".jpg" i) by (cbn; auto; lia).
    destruct i as [|[|i]]; [reflexivity | reflexivity | lia].
Qed.

(** ** The range of the quality *)

(** C6: the program at a [.webp] output whose encodings are above the
    budget, with a codec that takes integer qualities only.  The first two
    attempts use the integers 95 and 76; the third uses
    60.800000000000004, between 60 and 61, because line 108 does not round
    the decayed quality; the codec rejects it and the search ends with
    that error. *)
Theorem third_attempt_quality_not_integer :
  exists (r : LoopRun) (a1 a2 a3 : Attempt) (e : Error),
    qualitySearch strictNoisyCodec ".webp" 10 = Some r
    /\ run_trace r = [a1; a2; a3]
    /\ a_options a1 = WebpOptions 95 /\ a_output a1 = Ok noise
    /\ a_options a2 = WebpOptions 76 /\ a_output a2 = Ok noise
    /\ a_number a3 = 3
    /\ a_options a3 = WebpOptions (8556839292003943 # 140737488355328)
    /\ (60 < a_quality a3)%Q /\ (a_quality a3 < 61)%Q
    /\ JS.isInteger (a_quality a3) = false
    /\ a_output a3 = Throw e
    /\ run_exit r = Threw e.
Proof.
  destruct (strict_search_throws (fun _ => noise) ".webp")
    as [r [Hr [Htr Hexit]]].
  { cbn. auto. }
  { intros k _. apply overBudget_noise. }
  assert (Hin : In ".webp"%string qualityExtensions) by (cbn; auto).
  exists r, (attemptAt strictNoisyCodec ".webp" 0),
         (attemptAt strictNoisyCodec ".webp" 1),
         (attemptAt strictNoisyCodec ".webp" 2),
         "Expected integer between 1 and 100 for quality"%string.
  assert (H0 : strictNoisyCodec (optionsAt ".webp" 0) = Ok noise)
    by (unfold strictNoisyCodec;
        rewrite (integerQualityCodec_schedule _ ".webp" 0 Hin) by lia; reflexivity).
  assert (H1 : strictNoisyCodec (optionsAt ".webp" 1) = Ok noise)
    by (unfold strictNoisyCodec;
        rewrite (integerQualityCodec_schedule _ ".webp" 1 Hin) by lia; reflexivity).
  assert (H2 : strictNoisyCodec (optionsAt ".webp" 2)
               = Throw "Expected integer between 1 and 100 for quality"%string)
    by (unfold strictNoisyCodec;
        rewrite (integerQualityCodec_schedule _ ".webp" 2 Hin) by lia; reflexivity).
  split; [exact Hr|]. split; [exact Htr|].
  cbn [attemptAt a_output a_quality a_number a_options].
  rewrite H0, H1, H2.
  split; [vm_compute; reflexivity|]. split; [reflexivity|].
  split; [vm_compute; reflexivity|]. split; [reflexivity|].
  split; [reflexivity|]. split; [vm_compute; reflexivity|].
  split; [vm_compute; reflexivity|]. split; [vm_compute; reflexivity|].
  split; [vm_compute; reflexivity|].
  split; [reflexivity | exact Hexit].
Qed.

(** ** PNG *)

(** C7: for a [.png] output every attempt asks the codec for the
    compression level [min(9, round(9 * (100 - quality) / 100))] of the
    quality of that attempt (the binary64 computation of the program
    yields the value of the exact formula). *)
Theorem png_compression_level
    (toBuffer : OutputOptions -> result Buffer) (n : nat) :
  exists r : LoopRun,
    qualitySearch toBuffer ".png" (10 + n) = Some r
    /\ forall a, In a (run_trace r) ->
         a_options a = PngOptions (specCompressionLevel (a_quality a)) (a_quality a).
Proof.
  destruct (qualitySearch_shape toBuffer ".png" n)
    as [r [m [Hr [Hm [Htr _]]]]].
  exists r. split; [exact Hr|]. rewrite Htr.
  intros a Hin. apply In_seq_map in Hin. destruct Hin as [j [Hj ->]].
  cbn [attemptAt a_quality a_options].
  rewrite <- pngCompressionLevel_exact by lia. reflexivity.
Qed.

(** ** A search that would come to fit the budget *)

(** C8: the program at a [.jpg] image whose encoding is above the budget
    at qualities 95 and 76 and within it from quality 70 downwards, with a
    codec that takes integer qualities only.  The decay sequence of the
    claim reaches 60 at its third attempt, where the encoding fits; the
    program asks for 60.800000000000004 instead, the codec rejects it, and
    the search ends with that error after three attempts, returning no
    bytes. *)
Theorem convergence_stopped_at_third_attempt :
  exists (r : LoopRun) (e : Error),
    strictThresholdCodec (outputOptions ".jpg" 95) = Ok noise
    /\ strictThresholdCodec (outputOptions ".jpg" 76) = Ok noise
    /\ overBudget noise = true
    /\ specDecay 95 = 76%Q /\ specDecay 76 = 60%Q
    /\ strictThresholdCodec (outputOptions ".jpg" 60) = Ok []
    /\ byteLength [] <= MAX_FILE_SIZE
    /\ qualitySearch strictThresholdCodec ".jpg" 10 = Some r
    /\ List.length (run_trace r) = 3%nat
    /\ (exists a, nth_error (run_trace r) 2 = Some a
                  /\ a_options a
                     = JpegOptions (8556839292003943 # 140737488355328) true
                  /\ a_output a = Throw e)
    /\ run_exit r = Threw e
    /\ (forall buffer quality attempts,
          run_exit r <> Finished buffer quality attempts).
Proof.
  assert (Hin : In ".jpg"%string qualityExtensions) by (cbn; auto).
  assert (H95 : strictThresholdCodec (outputOptions ".jpg" 95) = Ok noise)
    by reflexivity.
  assert (H76 : strictThresholdCodec (outputOptions ".jpg" 76) = Ok noise)
    by reflexivity.
  destruct (strict_search_throws
              (fun o => match qualityOf o with
                        | Some quality => if Qle_bool quality (70 # 1) then [] else noise
                        | None => noise
                        end) ".jpg" Hin)
    as [r [Hr [Htr Hexit]]].
  { intros k Hk. destruct k as [|[|k]]; [| |lia].
    - change (overBudget noise = true). apply overBudget_noise.
    - change (overBudget noise = true). apply overBudget_noise. }
  fold strictThresholdCodec in Hr, Htr.
  exists r, "Expected integer between 1 and 100 for quality"%string.
  split; [exact H95|]. split; [exact H76|]. split; [apply overBudget_noise|].
  split; [vm_compute; reflexivity|]. split; [vm_compute; reflexivity|].
  split; [reflexivity|]. split; [vm_compute; discriminate|].
  split; [exact Hr|]. rewrite Htr, length_map, length_seq.
  split; [reflexivity|]. split; [|split].
  - exists (attemptAt strictThresholdCodec ".jpg" 2).
    split; [reflexivity|]. cbn [attemptAt a_options a_output].
    split; [vm_compute; reflexivity|].
    unfold strictThresholdCodec.
    rewrite (integerQualityCodec_schedule _ ".jpg" 2 Hin) by lia. reflexivity.
  - exact Hexit.
  - intros buffer quality attempts. rewrite Hexit. discriminate.
Qed.

(** ** The program in its world *)

Section ProgramFacts.

Context {FS : Type} {bun : @Bun FS} {sharp : @Sharp FS} {path : Path}.

Lemma searchQuality_run (n : nat) (inputPath outputPath : string)
    (newWidth newHeight : Z) (w : World) :
  exists r : LoopRun,
    qualitySearch (fun o => sharp_toBuffer inputPath newWidth newHeight o (fs w))
                  (getExtension outputPath) (10 + n) = Some r
    /\ searchQuality (10 + n) inputPath outputPath newWidth newHeight w =
       match run_exit r with
       | Threw e => Throws e (mkWorld (fs w) (console w ++ run_console r))
       | Finished buffer quality attempts =>
         Returns (buffer, quality, attempts)
                 (mkWorld (fs w) (console w ++ run_console r))
       end.
Proof.
  destruct (qualitySearch_run
              (fun o => sharp_toBuffer inputPath newWidth newHeight o (fs w))
              (getExtension outputPath) n) as [r [Hr _]].
  exists r. split; [exact Hr|].
  unfold searchQuality. rewrite Hr. reflexivity.
Qed.

(** With fuel for ten passes [resizeImage] ends: it returns or throws. *)
Lemma resizeImage_ends (n : nat) (inputPath outputPath : string) (w : World) :
  resizeImage (10 + n) inputPath outputPath w <> Diverges.
Proof.
  unfold resizeImage, getFileSize, tryCatch, bind, log, reading, writing, throw.
  cbn [fs console].
  destruct (sharp_metadata inputPath (fs w)) as [metadata|e]; [|discriminate].
  destruct (falsy (md_width metadata) || falsy (md_height metadata));
    [discriminate|].
  destruct (newDimensions _ _) as [newWidth newHeight].
  match goal with
  | |- context [searchQuality _ _ _ _ _ ?w'] =>
    destruct (searchQuality_run n inputPath outputPath newWidth newHeight w')
      as [r [_ ->]]
  end.
  destruct (run_exit r) as [e|buffer quality attempts]; [discriminate|].
  cbn [fs console].
  destruct (@write _ storage outputPath buffer (fs w)) as [[[]|e] fs'];
    [|discriminate].
  cbn [fs console].
  destruct (@getSize _ storage inputPath fs') as [size|e]; discriminate.
Qed.

(** C10: when the dimensions are read, the search makes at least one
    attempt, and every attempt passes to the codec the options of its
    quality and records what the codec gave.  When the search ends
    without an error of the codec, the buffer is what the codec gave in
    the last attempt, and [resizeImage] hands that buffer to
    [storage.write] for the output path whatever its length: the file
    system it leaves is the one left by that write. *)
Theorem last_attempt_is_written (n : nat) (inputPath outputPath : string)
    (w : World) (width height : Z) :
  sharp_metadata inputPath (fs w) = Ok (mkMetadata (Some width) (Some height)) ->
  width <> 0 -> height <> 0 ->
  let codec := fun o =>
    sharp_toBuffer inputPath (fst (newDimensions width height))
                   (snd (newDimensions width height)) o (fs w) in
  exists r : LoopRun,
    qualitySearch codec (getExtension outputPath) (10 + n) = Some r
    /\ (1 <= List.length (run_trace r))%nat
    /\ (forall a, In a (run_trace r) ->
          a_options a = outputOptions (getExtension outputPath) (a_quality a)
          /\ a_output a = codec (a_options a))
    /\ forall buffer quality attempts,
         run_exit r = Finished buffer quality attempts ->
         1 <= attempts
         /\ attempts = Z.of_nat (List.length (run_trace r))
         /\ (exists a, nth_error (run_trace r) (Z.to_nat attempts - 1) = Some a
                       /\ a_number a = attempts
                       /\ codec (a_options a) = Ok buffer
                       /\ a_output a = Ok buffer)
         /\ exists w', worldOf (resizeImage (10 + n) inputPath outputPath w) = Some w'
                       /\ fs w' = snd (@write FS storage outputPath buffer (fs w)).
Proof.
  intros Hmeta Hwidth Hheight codec.
  destruct (qualitySearch_shape codec (getExtension outputPath) n)
    as [r [m [Hr [Hm [Htr [_ [Hexit _]]]]]]].
  exists r. split; [exact Hr|].
  rewrite Htr, length_map, length_seq. split; [lia|]. split.
  { intros a Hin. apply In_seq_map in Hin. destruct Hin as [j [_ ->]].
    split; reflexivity. }
  intros buffer quality attempts Hfin.
  assert (Hlast : codec (optionsAt (getExtension outputPath) (m - 1)) = Ok buffer
                  /\ attempts = Z.of_nat m).
  { rewrite Hexit in Hfin. unfold exitAt in Hfin.
    destruct (codec (optionsAt (getExtension outputPath) (m - 1))) as [b|e];
      [|discriminate].
    injection Hfin as <- _ <-. split; [reflexivity | lia]. }
  destruct Hlast as [Hlast ->].
  split; [lia|]. split; [reflexivity|]. split.
  - exists (attemptAt codec (getExtension outputPath) (m - 1)).
    rewrite Nat2Z.id, seq_map_nth_error by lia.
    cbn [Nat.add attemptAt a_number a_output a_options].
    split; [reflexivity|]. split; [lia|]. split; exact Hlast.
  - unfold resizeImage, getFileSize, tryCatch, bind, log, reading, writing, throw.
    cbn [fs console]. rewrite Hmeta. cbn [md_width md_height falsy].
    rewrite (proj2 (Z.eqb_neq width 0) Hwidth), (proj2 (Z.eqb_neq height 0) Hheight).
    cbn [orb]. subst codec.
    destruct (newDimensions width height) as [newWidth newHeight].
    cbn [fst snd] in Hr.
    unfold searchQuality. cbn [fs console]. rewrite Hr, Hfin. cbn [fs console].
    destruct (@write _ storage outputPath buffer (fs w)) as [[[]|e] fs'];
      cbn [fs console snd].
    + destruct (@getSize _ storage inputPath fs') as [size|e];
        eexists; split; reflexivity.
    + eexists; split; reflexivity.
Qed.

End ProgramFacts.

(** A [.bmp] image whose encoding at the default settings is above the
    budget: after ten attempts the buffer of 600000 bytes is written. *)
Lemma last_attempt_is_written_witness :
  exists (r : LoopRun) (w' : @World SampleFS),
    qualitySearch strictNoisyCodec ".bmp" (10 + 0) = Some r
    /\ List.length (run_trace r) = 10%nat
    /\ (forall a, In a (run_trace r) ->
          a_options a = DefaultOptions /\ a_output a = Ok noise)
    /\ run_exit r = Finished noise (qualityAt 10) 10
    /\ overBudget noise = true
    /\ worldOf (@resizeImage SampleFS sampleBun
                  (sampleSharpWith (Ok (mkMetadata (Some 2000) (Some 1500)))
                                   strictNoisyCodec)
                  samplePath (10 + 0) "./original/a.bmp" "./output/a.bmp"
                  sampleWorld) = Some w'
    /\ fs w' = [("./output/a.bmp"%string, noise)].
Proof.
  destruct (@last_attempt_is_written SampleFS sampleBun
              (sampleSharpWith (Ok (mkMetadata (Some 2000) (Some 1500)))
                               strictNoisyCodec)
              samplePath 0 "./original/a.bmp" "./output/a.bmp" sampleWorld
              2000 1500 eq_refl ltac:(discriminate) ltac:(discriminate))
    as [r [Hr [_ [Hall Hfin]]]].
  assert (Hr' : qualitySearch strictNoisyCodec ".bmp" (10 + 0) = Some r)
    by exact Hr.
  assert (Hopt : forall k, strictNoisyCodec (optionsAt ".bmp" k) = Ok noise).
  { intros k. unfold optionsAt. rewrite outputOptions_default; [reflexivity|].
    cbn. intros [H|[H|[H|[H|[]]]]]; discriminate. }
  destruct (qualitySearch_never_fits strictNoisyCodec ".bmp" 0)
    as [r0 [b [Hr0 [Htr [Hb Hexit]]]]].
  { intros k _. exists noise. split; [apply Hopt | apply overBudget_noise]. }
  rewrite Hr' in Hr0. injection Hr0 as <-.
  rewrite Hopt in Hb. injection Hb as <-.
  destruct (Hfin noise (qualityAt 10) 10 Hexit) as [_ [_ [_ [w' [Hw' Hfs]]]]].
  exists r, w'. split; [exact Hr'|].
  split; [rewrite Htr, length_map, length_seq; reflexivity|].
  split.
  { intros a Hin. destruct (Hall a Hin) as [Ho Hout].
    change (getExtension "./output/a.bmp") with ".bmp"%string in Ho.
    rewrite outputOptions_default in Ho
      by (cbn; intros [H|[H|[H|[H|[]]]]]; discriminate).
    split; [exact Ho|]. rewrite Hout, Ho. reflexivity. }
  split; [exact Hexit|]. split; [apply overBudget_noise|].
  split; [exact Hw' | exact Hfs].
Defined.

(** ** The batch *)

Section BatchFacts.

Context {FS : Type} {bun : @Bun FS} {sharp : @Sharp FS} {path : Path}.

(** One turn of the loop over the files. *)
Lemma processFiles_cons (fuel : nat) (fileName : string) (rest : list string)
    (p e : Z) (w : World) :
  processFiles fuel (fileName :: rest) p e w =
  match resizeImage fuel (join ORIGINAL_FOLDER fileName)
                    (join OUTPUT_FOLDER fileName) w with
  | Returns _ w' => processFiles fuel rest (p + 1) e w'
  | Throws err w' =>
    processFiles fuel rest p (e + 1)
                 (mkWorld (fs w') (console w' ++ [LogFailedFile fileName err]))
  | Diverges => Diverges
  end.
Proof.
  cbn [processFiles]. unfold bind at 1. unfold tryCatch at 1. unfold bind at 1.
  destruct (resizeImage fuel _ _ w) as [[] w'|err w'|]; reflexivity.
Qed.

Lemma processFiles_returns (n : nat) (files : list string) :
  forall (p e : Z) (w : World),
  exists (p' e' : Z) (w' : World),
    processFiles (10 + n) files p e w = Returns (p', e') w'
    /\ p' + e' = p + e + Z.of_nat (List.length files)
    /\ p <= p' /\ e <= e'.
Proof.
  induction files as [|fileName rest IH]; intros p e w.
  - exists p, e, w. cbn [List.length Z.of_nat]. repeat split; try lia.
  - rewrite processFiles_cons.
    pose proof (resizeImage_ends n (join ORIGINAL_FOLDER fileName)
                                 (join OUTPUT_FOLDER fileName) w) as Hends.
    destruct (resizeImage (10 + n) _ _ w) as [[] w1|err w1|]; [| |congruence].
    + destruct (IH (p + 1) e w1) as [p' [e' [w' [Hrun Hcount]]]].
      exists p', e', w'. rewrite Hrun. cbn [List.length]. repeat split; lia.
    + destruct (IH p (e + 1)
                   (mkWorld (fs w1) (console w1 ++ [LogFailedFile fileName err])))
        as [p' [e' [w' [Hrun Hcount]]]].
      exists p', e', w'. rewrite Hrun. cbn [List.length]. repeat split; lia.
Qed.

Lemma processFiles_app (n : nat) (before after : list string) :
  forall (p e p1 e1 : Z) (w w1 : World),
    processFiles (10 + n) before p e w = Returns (p1, e1) w1 ->
    processFiles (10 + n) (before ++ after) p e w =
    processFiles (10 + n) after p1 e1 w1.
Proof.
  induction before as [|fileName rest IH]; intros p e p1 e1 w w1 Hrun.
  - cbn in Hrun. injection Hrun as <- <- <-. reflexivity.
  - rewrite <- app_comm_cons, processFiles_cons.
    rewrite processFiles_cons in Hrun.
    destruct (resizeImage (10 + n) _ _ w) as [[] w2|err w2|];
      [apply IH; exact Hrun | apply IH; exact Hrun | discriminate].
Qed.

(** C9: wherever in the batch a file makes [resizeImage] throw, the error
    is caught in the turn of that file, [errorCount] grows by one, and the
    loop goes on with the files after it; the loop always returns, with
    every file counted as processed or as failed, and the summary at the
    end reports the two counts (the failed one whenever it is positive). *)
Theorem per_file_errors_are_counted (n : nat) :
  (forall (before : list string) (fileName : string) (after : list string)
          (w : World),
     exists (p e : Z) (w1 : World),
       processFiles (10 + n) before 0 0 w = Returns (p, e) w1
       /\ forall (err : Error) (w2 : World),
            resizeImage (10 + n) (join ORIGINAL_FOLDER fileName)
                        (join OUTPUT_FOLDER fileName) w1 = Throws err w2 ->
            exists (p' e' : Z) (w3 : World),
              processFiles (10 + n) (before ++ fileName :: after) 0 0 w
              = Returns (p', e') w3
              /\ processFiles (10 + n) after p (e + 1)
                   (mkWorld (fs w2) (console w2 ++ [LogFailedFile fileName err]))
                 = Returns (p', e') w3
              /\ p <= p' /\ e + 1 <= e'
              /\ p' + e' = Z.of_nat (List.length (before ++ fileName :: after)))
  /\ (forall (w w1 : World) (files : list string),
        ensureOutputFolder (mkWorld (fs w) (console w ++ [LogStarting]))
        = Returns tt w1 ->
        Bun_Glob_scan ORIGINAL_FOLDER (fs w1) = Ok files ->
        filter isSupportedImageFormat files <> [] ->
        let imageFiles := filter isSupportedImageFormat files in
        exists (p e : Z) (w2 : World),
          processFiles (10 + n) imageFiles 0 0
            (mkWorld (fs w1)
               (console w1 ++ [LogFound (Z.of_nat (List.length imageFiles))]))
          = Returns (p, e) w2
          /\ p + e = Z.of_nat (List.length imageFiles)
          /\ processAllImages (10 + n) w
             = Returns None (mkWorld (fs w2) (console w2 ++ summary p e))
          /\ In (LogSuccessCount p) (summary p e)
          /\ (0 < e -> In (LogFailedCount e) (summary p e))).
Proof.
  split.
  - intros before fileName after w.
    destruct (processFiles_returns n before 0 0 w) as [p [e [w1 [Hrun _]]]].
    exists p, e, w1. split; [exact Hrun|].
    intros err w2 Hthrow.
    destruct (processFiles_returns n after p (e + 1)
                (mkWorld (fs w2) (console w2 ++ [LogFailedFile fileName err])))
      as [p' [e' [w3 [Hrest [Hsum [Hp He]]]]]].
    exists p', e', w3.
    rewrite (processFiles_app n before (fileName :: after) 0 0 p e w w1 Hrun).
    rewrite processFiles_cons, Hthrow.
    split; [exact Hrest|]. split; [exact Hrest|].
    split; [exact Hp|]. split; [exact He|].
    destruct (processFiles_returns n (before ++ fileName :: after) 0 0 w)
      as [p'' [e'' [w'' [Hall [Hsum' _]]]]].
    rewrite (processFiles_app n before (fileName :: after) 0 0 p e w w1 Hrun)
      in Hall.
    rewrite processFiles_cons, Hthrow, Hrest in Hall.
    injection Hall as <- <- <-. lia.
  - intros w w1 files Hensure Hscan Hsome imageFiles.
    destruct (processFiles_returns n imageFiles 0 0
                (mkWorld (fs w1)
                   (console w1 ++ [LogFound (Z.of_nat (List.length imageFiles))])))
      as [p [e [w2 [Hrun [Hsum _]]]]].
    exists p, e, w2. split; [exact Hrun|]. split; [lia|]. split; [|split].
    + unfold processAllImages, tryCatch.
      unfold bind at 1. unfold log at 1. cbn beta iota.
      unfold bind at 1. rewrite Hensure.
      unfold bind at 1. rewrite Hscan.
      fold imageFiles.
      destruct (Z.eqb_spec (Z.of_nat (List.length imageFiles)) 0) as [Hz|_].
      { exfalso. apply Hsome. fold imageFiles.
        destruct imageFiles; [reflexivity | discriminate]. }
      unfold bind at 1. unfold log at 1. cbn beta iota.
      unfold bind at 1. rewrite Hrun.
      reflexivity.
    + unfold summary. cbn. auto.
    + intros Hpos. unfold summary. apply in_or_app. right.
      destruct (Z.gtb_spec e 0); [left; reflexivity | lia].
Qed.

End BatchFacts.

(** The batch of the sample world: [broken.png] fails between two files
    that are processed, and the summary says so. *)
Example sample_batch :
  option_map (fun w => (map fst (fs w), skipn 22 (console w)))
             (worldOf (processAllImages 10 sampleWorld))
  = Some (["./output/b.jpg"; "./output/a.jpg"; "./output/.gitkeep"]%string,
          [LogCompleted; LogSuccessCount 2; LogFailedCount 1]).
Proof. vm_compute. reflexivity. Qed.

(** * Further properties *)

(** ** The dimension planner *)

Lemma planDimensions_within (maxDim width height : Z) :
  0 < width -> 0 < height -> 0 < maxDim ->
  0 <= fst (planDimensions maxDim width height) <= maxDim
  /\ 0 <= snd (planDimensions maxDim width height) <= maxDim.
Proof.
  intros Hw Hh Hm. unfold planDimensions.
  pose proof (roundDiv_nearest (height * maxDim) width Hw) as Nh.
  pose proof (roundDiv_nearest (width * maxDim) height Hh) as Nw.
  unfold nearestTo in *.
  destruct (Z.gtb_spec width height);
    [destruct (Z.gtb_spec width maxDim) | destruct (Z.gtb_spec height maxDim)];
    cbn [fst snd]; try lia.
  - split; [lia|]. split.
    + assert (-1 < roundDiv (height * maxDim) width); [|lia].
      apply Z.mul_lt_mono_pos_r with (p := 2 * width); nia.
    + apply (nearestTo_le _ (height * maxDim) width); [lia | nia |exact Nh].
  - split; [|lia]. split.
    + assert (-1 < roundDiv (width * maxDim) height); [|lia].
      apply Z.mul_lt_mono_pos_r with (p := 2 * height); nia.
    + apply (nearestTo_le _ (width * maxDim) height); [lia | nia |exact Nw].
Qed.

(** X1: planning is idempotent: the planned size, planned again with the
    same bound, is left as it is. *)
Theorem planDimensions_idempotent (maxDim width height : Z) :
  0 < width -> 0 < height -> 0 < maxDim ->
  planDimensions maxDim (fst (planDimensions maxDim width height))
                        (snd (planDimensions maxDim width height))
  = planDimensions maxDim width height.
Proof.
  intros Hw Hh Hm.
  destruct (planDimensions_within maxDim width height Hw Hh Hm) as [Hnw Hnh].
  destruct (planDimensions maxDim width height) as [nw nh]. cbn [fst snd] in *.
  unfold planDimensions.
  destruct (Z.gtb_spec nw nh);
    [destruct (Z.gtb_spec nw maxDim) | destruct (Z.gtb_spec nh maxDim)];
    try reflexivity; lia.
Qed.

Lemma planDimensions_idempotent_witness :
  planDimensions 1024 (fst (planDimensions 1024 4000 3000))
                      (snd (planDimensions 1024 4000 3000))
  = planDimensions 1024 4000 3000.
Proof. apply (planDimensions_idempotent 1024 4000 3000); lia. Defined.

(** X2: the orientation is kept: a landscape image is planned landscape
    (or square), a portrait image portrait (or square), a square image
    square. *)
Theorem planDimensions_keeps_orientation (maxDim width height : Z) :
  0 < width -> 0 < height -> 0 < maxDim ->
  (height <= width ->
     snd (planDimensions maxDim width height) <= fst (planDimensions maxDim width height))
  /\ (width <= height ->
     fst (planDimensions maxDim width height) <= snd (planDimensions maxDim width height)).
Proof.
  intros Hw Hh Hm.
  destruct (planDimensions_within maxDim width height Hw Hh Hm) as [Hnw Hnh].
  revert Hnw Hnh. unfold planDimensions.
  destruct (Z.gtb_spec width height);
    [destruct (Z.gtb_spec width maxDim) | destruct (Z.gtb_spec height maxDim)];
    cbn [fst snd]; intros; split; intros; try lia.
  assert (width = height) by lia. subst height.
  pose proof (roundDiv_nearest (width * maxDim) width Hw) as N.
  unfold nearestTo in N.
  assert (maxDim - 1 < roundDiv (width * maxDim) width); [|lia].
  apply Z.mul_lt_mono_pos_r with (p := 2 * width); lia.
Qed.

Lemma planDimensions_keeps_orientation_witness :
  (600 <= 3000 ->
     snd (planDimensions 1024 3000 600) <= fst (planDimensions 1024 3000 600))
  /\ (3000 <= 600 ->
     fst (planDimensions 1024 3000 600) <= snd (planDimensions 1024 3000 600)).
Proof. apply (planDimensions_keeps_orientation 1024 3000 600); lia. Defined.

(** X3: the short side of a scaled image is planned as 0 pixels exactly
    when the image is more than [2 * maxDim] times longer than it is
    short; otherwise both planned sides are positive. *)
Theorem planDimensions_zero_side (maxDim width height : Z) :
  0 < width -> 0 < height -> 0 < maxDim ->
  (0 < fst (planDimensions maxDim width height)
   /\ 0 < snd (planDimensions maxDim width height))
  <-> ~ (maxDim < Z.max width height
         /\ 2 * Z.min width height * maxDim < Z.max width height).
Proof.
  intros Hw Hh Hm.
  pose proof (roundDiv_nearest (height * maxDim) width Hw) as Nh.
  pose proof (roundDiv_nearest (width * maxDim) height Hh) as Nw.
  unfold nearestTo in *. unfold planDimensions.
  destruct (Z.gtb_spec width height);
    [destruct (Z.gtb_spec width maxDim) | destruct (Z.gtb_spec height maxDim)];
    cbn [fst snd]; try lia.
  - replace (Z.max width height) with width by lia.
    replace (Z.min width height) with height by lia.
    split.
    + intros [_ Hpos] [_ Hbad]. nia.
    + intros Hgood. split; [lia|].
      assert (2 * height * maxDim >= width) by lia.
      assert (0 < roundDiv (height * maxDim) width * (2 * width)) by nia.
      nia.
  - replace (Z.max width height) with height by lia.
    replace (Z.min width height) with width by lia.
    split.
    + intros [Hpos _] [_ Hbad]. nia.
    + intros Hgood. split; [|lia].
      assert (2 * width * maxDim >= height) by lia.
      assert (0 < roundDiv (width * maxDim) height * (2 * height)) by nia.
      nia.
Qed.

Lemma planDimensions_zero_side_witness :
  (0 < fst (planDimensions 1024 10000 1) /\ 0 < snd (planDimensions 1024 10000 1))
  <-> ~ (1024 < Z.max 10000 1 /\ 2 * Z.min 10000 1 * 1024 < Z.max 10000 1).
Proof. apply (planDimensions_zero_side 1024 10000 1); lia. Defined.

(** X4: for sides below [2^26] the program's binary64 evaluation of the
    planner gives the size of the exact integer planner. *)
Theorem jsNewDimensions_exact (width height : Z) :
  0 < width < 2 ^ 26 -> 0 < height < 2 ^ 26 ->
  jsNewDimensions width height = newDimensions width height.
Proof.
  intros Hw Hh. unfold jsNewDimensions, newDimensions, planDimensions.
  destruct (Z.gtb_spec width height);
    [destruct (Z.gtb_spec width MAX_DIMENSION)
    | destruct (Z.gtb_spec height MAX_DIMENSION)];
    try reflexivity.
  - rewrite JSFacts.planner_quotient_binary64; [reflexivity | lia | lia |].
    unfold MAX_DIMENSION. lia.
  - rewrite JSFacts.planner_quotient_binary64; [reflexivity | lia | lia |].
    unfold MAX_DIMENSION. lia.
Qed.

Lemma jsNewDimensions_exact_witness :
  jsNewDimensions 4032 3024 = newDimensions 4032 3024.
Proof. apply (jsNewDimensions_exact 4032 3024); lia. Defined.
(** ** The search loop *)

Section LoopFacts.

Variable toBuffer : OutputOptions -> result Buffer.
Variable ext : string.

Lemma RunFrom_console (k : nat) (r : LoopRun) :
  RunFrom toBuffer ext k r ->
  run_console r = flat_map adjustingLine (run_trace r).
Proof.
  induction 1 as [k e E|k b E Hb|k b E Hb Hk|k b r E Hb Hk Hr IH];
    cbn [run_trace run_console flat_map]; unfold adjustingLine at 1;
    cbn [attemptAt a_output a_quality a_number]; rewrite E.
  - reflexivity.
  - rewrite Hb. reflexivity.
  - rewrite Hb. subst k. rewrite <- qualityAt_S. reflexivity.
  - rewrite Hb, <- qualityAt_S, IH. reflexivity.
Qed.

Lemma adjustingLine_kind (a : Attempt) (l : LogLine) :
  In l (adjustingLine a) -> exists q k, l = LogAdjusting q k.
Proof.
  unfold adjustingLine.
  destruct (a_output a) as [b|e]; [|intros []].
  destruct (overBudget b); [|intros []].
  intros [<-|[]]. eauto.
Qed.

Lemma RunFrom_adjusting (k : nat) (r : LoopRun) :
  RunFrom toBuffer ext k r ->
  forall l, In l (run_console r) -> exists q j, l = LogAdjusting q j.
Proof.
  intros Hrun l Hin. rewrite (RunFrom_console k r Hrun) in Hin.
  apply in_flat_map in Hin. destruct Hin as [a [_ Hl]].
  apply (adjustingLine_kind a l Hl).
Qed.

End LoopFacts.

(** X5: the loop prints one "Adjusting quality" line after each attempt
    whose encoding is above the byte budget, also after the tenth, and no
    other line; the line carries the decreased quality and the number of
    the attempt just made. *)
Theorem console_lists_adjustments
    (toBuffer : OutputOptions -> result Buffer) (ext : string) (n : nat) :
  exists r : LoopRun,
    qualitySearch toBuffer ext (10 + n) = Some r
    /\ run_console r = flat_map adjustingLine (run_trace r).
Proof.
  destruct (qualitySearch_run toBuffer ext n) as [r [Hr Hrun]].
  exists r. split; [exact Hr|]. apply (RunFrom_console _ _ _ _ Hrun).
Qed.

(** X6: when the search ends with a buffer, every attempt before the last
    was above the budget.  A buffer within the budget comes with the
    quality it was encoded at; a buffer above the budget is returned only
    after ten attempts, and the final [quality] is then the next, lower
    value of the schedule, which no encoding has used. *)
Theorem finished_quality_and_budget
    (toBuffer : OutputOptions -> result Buffer) (ext : string) (n : nat) :
  exists r : LoopRun,
    qualitySearch toBuffer ext (10 + n) = Some r
    /\ forall buffer quality attempts,
         run_exit r = Finished buffer quality attempts ->
         exists a : Attempt,
           nth_error (run_trace r) (List.length (run_trace r) - 1) = Some a
           /\ a_output a = Ok buffer
           /\ (overBudget buffer = false -> quality = a_quality a)
           /\ (overBudget buffer = true ->
                 attempts = 10 /\ quality = decay (a_quality a)
                 /\ (quality < a_quality a)%Q)
           /\ forall i a', (i < List.length (run_trace r) - 1)%nat ->
                nth_error (run_trace r) i = Some a' ->
                exists b, a_output a' = Ok b /\ overBudget b = true.
Proof.
  destruct (qualitySearch_shape toBuffer ext n)
    as [r [m [Hr [Hm [Htr [Hretry [Hexit Hlast]]]]]]].
  exists r. split; [exact Hr|].
  rewrite Htr, length_map, length_seq.
  intros buffer quality attempts Hfin.
  rewrite Hexit in Hfin. unfold exitAt in Hfin.
  destruct (toBuffer (optionsAt ext (m - 1))) as [b|e] eqn:E; [|discriminate].
  injection Hfin as <- <- <-.
  exists (attemptAt toBuffer ext (m - 1)).
  rewrite seq_map_nth_error by lia. cbn [Nat.add attemptAt a_output a_quality].
  split; [reflexivity|]. split; [exact E|]. split; [|split].
  - intros Hb. rewrite Hb. reflexivity.
  - intros Hb. rewrite Hb.
    assert (m = 10%nat) by (apply Hlast; exists b; auto). subst m.
    split; [reflexivity|]. split; [reflexivity|].
    apply (qualityAt_decreases 9). lia.
  - intros i a' Hi Hnth. apply nth_error_seq_map in Hnth.
    destruct Hnth as [_ ->]. cbn [Nat.add attemptAt a_output].
    apply Hretry. exact Hi.
Qed.

(** X7: an error of the codec is not retried: the attempt in which
    [toBuffer] throws is the last one and the search ends with that
    error. *)
Theorem codec_error_ends_search
    (toBuffer : OutputOptions -> result Buffer) (ext : string) (n : nat) :
  exists r : LoopRun,
    qualitySearch toBuffer ext (10 + n) = Some r
    /\ (forall i a e,
          nth_error (run_trace r) i = Some a -> a_output a = Throw e ->
          List.length (run_trace r) = S i /\ run_exit r = Threw e)
    /\ (forall e, run_exit r = Threw e ->
          exists a, nth_error (run_trace r) (List.length (run_trace r) - 1) = Some a
                    /\ a_output a = Throw e).
Proof.
  destruct (qualitySearch_shape toBuffer ext n)
    as [r [m [Hr [Hm [Htr [Hretry [Hexit Hlast]]]]]]].
  exists r. split; [exact Hr|].
  rewrite Htr, length_map, length_seq, Hexit. unfold exitAt. split.
  - intros i a e Hnth Hout. apply nth_error_seq_map in Hnth.
    destruct Hnth as [Hi ->]. cbn [Nat.add attemptAt a_output] in Hout.
    assert (i = (m - 1)%nat).
    { destruct (Nat.eq_dec i (m - 1)) as [|Hne]; [assumption|].
      destruct (Hretry i ltac:(lia)) as [b [E _]]. congruence. }
    subst i. rewrite Hout. split; [lia | reflexivity].
  - intros e Hthrew.
    exists (attemptAt toBuffer ext (m - 1)).
    rewrite seq_map_nth_error by lia. cbn [Nat.add attemptAt a_output].
    split; [reflexivity|].
    destruct (toBuffer (optionsAt ext (m - 1))) as [b|e']; [discriminate|].
    injection Hthrew as ->. reflexivity.
Qed.

Lemma pngCompressionLevel_range (k : nat) :
  (k <= 9)%nat -> 0 <= pngCompressionLevel (qualityAt k) <= 8.
Proof.
  intros H.
  do 10 (destruct k as [|k]; [vm_compute; split; discriminate|]).
  lia.
Qed.

Lemma pngCompressionLevel_rises (k : nat) :
  (k <= 8)%nat ->
  pngCompressionLevel (qualityAt k) <= pngCompressionLevel (qualityAt (S k)).
Proof.
  intros H.
  do 9 (destruct k as [|k]; [vm_compute; discriminate|]).
  lia.
Qed.

(** X8: for a [.png] output the compression level asked of the codec
    starts at 0, never falls from one attempt to the next and never
    exceeds 8: the cap of 9 in the formula is never reached. *)
Theorem png_level_rises_to_8
    (toBuffer : OutputOptions -> result Buffer) (n : nat) :
  exists r : LoopRun,
    qualitySearch toBuffer ".png" (10 + n) = Some r
    /\ (exists a rest, run_trace r = a :: rest
                       /\ a_options a = PngOptions 0 95)
    /\ (forall a, In a (run_trace r) ->
          exists level, a_options a = PngOptions level (a_quality a)
                        /\ 0 <= level <= 8)
    /\ (forall i a a' level level' q q',
          nth_error (run_trace r) i = Some a ->
          nth_error (run_trace r) (S i) = Some a' ->
          a_options a = PngOptions level q ->
          a_options a' = PngOptions level' q' ->
          level <= level').
Proof.
  destruct (qualitySearch_shape toBuffer ".png" n)
    as [r [m [Hr [Hm [Htr _]]]]].
  exists r. split; [exact Hr|]. rewrite Htr. split; [|split].
  - destruct m as [|m]; [lia|].
    exists (attemptAt toBuffer ".png" 0),
           (map (attemptAt toBuffer ".png") (seq 1 m)).
    split; [reflexivity|]. vm_compute. reflexivity.
  - intros a Hin. apply In_seq_map in Hin. destruct Hin as [j [Hj ->]].
    exists (pngCompressionLevel (qualityAt j)).
    split; [reflexivity|]. apply pngCompressionLevel_range. lia.
  - intros i a a' level level' q q' Ha Ha' Hopt Hopt'.
    apply nth_error_seq_map in Ha, Ha'.
    destruct Ha as [_ ->], Ha' as [Hi ->].
    cbn [Nat.add attemptAt a_options] in Hopt, Hopt'.
    unfold optionsAt, outputOptions in Hopt, Hopt'. cbn [String.eqb Ascii.eqb Bool.eqb orb] in Hopt, Hopt'.
    injection Hopt as <- _. injection Hopt' as <- _.
    apply pngCompressionLevel_rises. lia.
Qed.

(** X9: for [.jpg] and [.jpeg] outputs every attempt asks the codec for
    mozjpeg and for the quality of the attempt as it is, not rounded; for
    [.webp] for the quality as it is. *)
Theorem lossy_options_carry_quality
    (toBuffer : OutputOptions -> result Buffer) (n : nat) :
  (forall ext, ext = ".jpg"%string \/ ext = ".jpeg"%string ->
     exists r : LoopRun,
       qualitySearch toBuffer ext (10 + n) = Some r
       /\ forall a, In a (run_trace r) ->
            a_options a = JpegOptions (a_quality a) true)
  /\ exists r : LoopRun,
       qualitySearch toBuffer ".webp" (10 + n) = Some r
       /\ forall a, In a (run_trace r) ->
            a_options a = WebpOptions (a_quality a).
Proof.
  split.
  - intros ext Hext.
    destruct (qualitySearch_shape toBuffer ext n) as [r [m [Hr [Hm [Htr _]]]]].
    exists r. split; [exact Hr|]. rewrite Htr.
    intros a Hin. apply In_seq_map in Hin. destruct Hin as [j [Hj ->]].
    destruct Hext as [-> | ->]; reflexivity.
  - destruct (qualitySearch_shape toBuffer ".webp" n) as [r [m [Hr [Hm [Htr _]]]]].
    exists r. split; [exact Hr|]. rewrite Htr.
    intros a Hin. apply In_seq_map in Hin. destruct Hin as [j [Hj ->]].
    reflexivity.
Qed.
(** ** [resizeImage] *)

Section ResizeFacts.

Context {FS : Type} {bun : @Bun FS} {sharp : @Sharp FS} {path : Path}.

(** Running [resizeImage] up to its first collaborator. *)
Ltac enter_resizeImage :=
  unfold resizeImage, getFileSize, tryCatch, bind, log, reading, writing, throw;
  cbn [fs console].

(** ... and on, through the dimensions [width] x [height], to the search. *)
Ltac enter_search width height Hwidth Hheight :=
  cbn [md_width md_height falsy];
  rewrite (proj2 (Z.eqb_neq width 0) Hwidth), (proj2 (Z.eqb_neq height 0) Hheight);
  cbn [orb];
  destruct (newDimensions width height) as [newWidth newHeight];
  cbn [fst snd] in *;
  unfold searchQuality; cbn [fs console].

(** The outcome of [resizeImage], path by path. *)
Lemma resizeImage_paths (n : nat) (inputPath outputPath : string) (w : World) :
  let start := console w ++ [LogProcessing inputPath] in
  (exists e middle,
     (forall l, In l middle -> exists q k, l = LogAdjusting q k)
     /\ resizeImage (10 + n) inputPath outputPath w
        = Throws e (mkWorld (fs w)
                      (start ++ middle ++ [LogErrorProcessing inputPath e])))
  \/ (exists r buffer quality attempts width height,
        qualitySearch
          (fun o => sharp_toBuffer inputPath (fst (newDimensions width height))
                                   (snd (newDimensions width height)) o (fs w))
          (getExtension outputPath) (10 + n) = Some r
        /\ run_exit r = Finished buffer quality attempts
        /\ ((exists e,
               resizeImage (10 + n) inputPath outputPath w
               = Throws e
                   (mkWorld (snd (@write FS storage outputPath buffer (fs w)))
                      (start ++ run_console r ++ [LogErrorProcessing inputPath e])))
            \/ (exists size,
                  fst (@write FS storage outputPath buffer (fs w)) = Ok tt
                  /\ resizeImage (10 + n) inputPath outputPath w
                     = Returns tt
                         (mkWorld (snd (@write FS storage outputPath buffer (fs w)))
                            (start ++ run_console r
                             ++ [LogWritten inputPath outputPath;
                                 LogSize size (byteLength buffer);
                                 LogDimensions width height
                                   (fst (newDimensions width height))
                                   (snd (newDimensions width height));
                                 LogQuality quality]))))).
Proof.
  intros start. subst start.
  destruct (sharp_metadata inputPath (fs w)) as [metadata|e] eqn:Hmeta.
  - destruct (falsy (md_width metadata) || falsy (md_height metadata)) eqn:Hfalsy.
    + left. exists "Unable to read image dimensions"%string, [].
      split; [intros l []|].
      enter_resizeImage. rewrite Hmeta, Hfalsy. cbn [fs console].
      reflexivity.
    + destruct metadata as [[width|] [height|]]; cbn [md_width md_height falsy] in Hfalsy;
        try discriminate Hfalsy;
        try (rewrite orb_true_r in Hfalsy; discriminate Hfalsy).
      apply orb_false_elim in Hfalsy. destruct Hfalsy as [Hw0 Hh0].
      apply Z.eqb_neq in Hw0, Hh0.
      destruct (qualitySearch_run
                  (fun o => sharp_toBuffer inputPath (fst (newDimensions width height))
                              (snd (newDimensions width height)) o (fs w))
                  (getExtension outputPath) n) as [r [Hr Hrun]].
      destruct (run_exit r) as [e|buffer quality attempts] eqn:Hexit.
      * left. exists e, (run_console r).
        split; [apply (RunFrom_adjusting _ _ _ _ Hrun)|].
        enter_resizeImage. rewrite Hmeta. enter_search width height Hw0 Hh0.
        rewrite Hr, Hexit. cbn [fs console].
        repeat rewrite <- app_assoc. reflexivity.
      * right. exists r, buffer, quality, attempts, width, height.
        split; [exact Hr|]. split; [exact Hexit|].
        enter_resizeImage. rewrite Hmeta. enter_search width height Hw0 Hh0.
        rewrite Hr, Hexit. cbn [fs console].
        destruct (@write _ storage outputPath buffer (fs w)) as [[[]|e] fs'];
          cbn [fst snd fs console].
        -- destruct (@getSize _ storage inputPath fs') as [size|e];
             cbn [fs console].
           ++ right. exists size. split; [reflexivity|].
              repeat rewrite <- app_assoc. reflexivity.
           ++ left. exists e. repeat rewrite <- app_assoc. reflexivity.
        -- left. exists e. repeat rewrite <- app_assoc. reflexivity.
  - left. exists e, []. split; [intros l []|].
    enter_resizeImage. rewrite Hmeta. cbn [fs console].
    repeat rewrite <- app_assoc. reflexivity.
Qed.

(** X10: when the metadata lack a width or a height, or give 0 for one,
    [resizeImage] throws "Unable to read image dimensions" before any
    encoding, whatever the fuel; the error is printed once and the file
    system is left as it was. *)
Theorem unreadable_dimensions_throw (fuel : nat) (inputPath outputPath : string)
    (w : World) (metadata : Metadata) :
  sharp_metadata inputPath (fs w) = Ok metadata ->
  falsy (md_width metadata) || falsy (md_height metadata) = true ->
  resizeImage fuel inputPath outputPath w
  = Throws "Unable to read image dimensions"%string
      (mkWorld (fs w)
         (console w ++ [LogProcessing inputPath;
                        LogErrorProcessing inputPath
                          "Unable to read image dimensions"%string])).
Proof.
  intros Hmeta Hfalsy.
  enter_resizeImage. rewrite Hmeta, Hfalsy. cbn [fs console].
  rewrite <- app_assoc. reflexivity.
Qed.

(** X11: once the search has ended with a buffer, [resizeImage] writes it
    and then asks for the size of the input in the file system that the
    write has left.  If the write throws, or if the size query throws
    although the output is written, the call throws that error; otherwise
    it returns after printing the size read, the length of the buffer, the
    dimensions and the final quality. *)
Theorem resizeImage_after_search (n : nat) (inputPath outputPath : string)
    (w : World) (width height : Z) (r : LoopRun)
    (buffer : Buffer) (quality : Q) (attempts : Z) :
  sharp_metadata inputPath (fs w) = Ok (mkMetadata (Some width) (Some height)) ->
  width <> 0 -> height <> 0 ->
  qualitySearch
    (fun o => sharp_toBuffer inputPath (fst (newDimensions width height))
                             (snd (newDimensions width height)) o (fs w))
    (getExtension outputPath) (10 + n) = Some r ->
  run_exit r = Finished buffer quality attempts ->
  let lines := console w ++ [LogProcessing inputPath] ++ run_console r in
  resizeImage (10 + n) inputPath outputPath w
  = match @write FS storage outputPath buffer (fs w) with
    | (Throw e, fs') =>
      Throws e (mkWorld fs' (lines ++ [LogErrorProcessing inputPath e]))
    | (Ok _, fs') =>
      match @getSize FS storage inputPath fs' with
      | Throw e =>
        Throws e (mkWorld fs' (lines ++ [LogErrorProcessing inputPath e]))
      | Ok originalSize =>
        Returns tt
          (mkWorld fs'
             (lines ++ [LogWritten inputPath outputPath;
                        LogSize originalSize (byteLength buffer);
                        LogDimensions width height
                          (fst (newDimensions width height))
                          (snd (newDimensions width height));
                        LogQuality quality]))
      end
    end.
Proof.
  intros Hmeta Hwidth Hheight Hr Hfin lines. subst lines.
  enter_resizeImage. rewrite Hmeta. enter_search width height Hwidth Hheight.
  rewrite Hr, Hfin. cbn [fs console].
  destruct (@write _ storage outputPath buffer (fs w)) as [[[]|e] fs'];
    cbn [fs console].
  - destruct (@getSize _ storage inputPath fs') as [size|e]; cbn [fs console];
      repeat rewrite <- app_assoc; reflexivity.
  - repeat rewrite <- app_assoc. reflexivity.
Qed.

(** X12: every error that [resizeImage] throws is printed before it is
    thrown again: the console it leaves begins, after what was there, with
    the "Processing" line of the input and ends with the error line of
    the input and the error. *)
Theorem resizeImage_logs_every_error (n : nat) (inputPath outputPath : string)
    (w w' : World) (e : Error) :
  resizeImage (10 + n) inputPath outputPath w = Throws e w' ->
  exists middle,
    console w' = console w ++ [LogProcessing inputPath] ++ middle
                 ++ [LogErrorProcessing inputPath e].
Proof.
  intros Hthrows.
  destruct (resizeImage_paths n inputPath outputPath w)
    as [[e1 [middle [_ H1]]]
       |[r [buffer [quality [attempts [width [height [_ [_ [[e1 H1]|[size [_ H1]]]]]]]]]]]];
    rewrite H1 in Hthrows; try discriminate Hthrows;
    injection Hthrows as <- <-; cbn [console].
  - exists middle. rewrite <- app_assoc. reflexivity.
  - exists (run_console r). rewrite <- app_assoc. reflexivity.
Qed.

(** X13: [resizeImage] changes the file system by nothing but the one
    write of the output.  It always ends; the file system it leaves is
    either unchanged (the metadata cannot be read, a dimension is missing
    or the codec throws) or the one left by writing the buffer with which
    the search ended; and it returns only if that write has succeeded. *)
Theorem resizeImage_writes_once (n : nat) (inputPath outputPath : string)
    (w : World) :
  exists w',
    worldOf (resizeImage (10 + n) inputPath outputPath w) = Some w'
    /\ (fs w' = fs w
        \/ exists r buffer quality attempts width height,
             qualitySearch
               (fun o => sharp_toBuffer inputPath
                           (fst (newDimensions width height))
                           (snd (newDimensions width height)) o (fs w))
               (getExtension outputPath) (10 + n) = Some r
             /\ run_exit r = Finished buffer quality attempts
             /\ fs w' = snd (@write FS storage outputPath buffer (fs w)))
    /\ (forall u, resizeImage (10 + n) inputPath outputPath w = Returns u w' ->
          exists r buffer quality attempts width height,
            qualitySearch
              (fun o => sharp_toBuffer inputPath
                          (fst (newDimensions width height))
                          (snd (newDimensions width height)) o (fs w))
              (getExtension outputPath) (10 + n) = Some r
            /\ run_exit r = Finished buffer quality attempts
            /\ @write FS storage outputPath buffer (fs w) = (Ok tt, fs w')).
Proof.
  destruct (resizeImage_paths n inputPath outputPath w)
    as [[e1 [middle [_ H1]]]
       |[r [buffer [quality [attempts [width [height [Hr [Hexit
          [[e1 H1]|[size [Hok H1]]]]]]]]]]]];
    rewrite H1; cbn [worldOf]; eexists; (split; [reflexivity|]); cbn [fs].
  - split; [left; reflexivity | discriminate].
  - split; [|discriminate].
    right. exists r, buffer, quality, attempts, width, height. auto.
  - split; [right|intros u _];
      exists r, buffer, quality, attempts, width, height;
      (split; [exact Hr|]); (split; [exact Hexit|]); [reflexivity|].
    destruct (@write FS storage outputPath buffer (fs w)) as [res fs'].
    cbn [fst snd] in *. subst res. reflexivity.
Qed.

End ResizeFacts.

(** A 0 x 1500 image. *)
Lemma unreadable_dimensions_throw_witness :
  @resizeImage SampleFS sampleBun
    (sampleSharpWith (Ok (mkMetadata (Some 0) (Some 1500))) thresholdCodec)
    samplePath 0 "./original/a.jpg" "./output/a.jpg" sampleWorld
  = Throws "Unable to read image dimensions"%string
      (mkWorld (fs sampleWorld)
         (console sampleWorld
          ++ [LogProcessing "./original/a.jpg";
              LogErrorProcessing "./original/a.jpg"
                "Unable to read image dimensions"%string])).
Proof.
  apply (@unreadable_dimensions_throw SampleFS sampleBun
           (sampleSharpWith (Ok (mkMetadata (Some 0) (Some 1500))) thresholdCodec)
           samplePath 0 "./original/a.jpg" "./output/a.jpg" sampleWorld
           (mkMetadata (Some 0) (Some 1500))).
  - reflexivity.
  - reflexivity.
Defined.

(** An 800 x 600 image that fits the budget at once. *)
Lemma resizeImage_after_search_witness :
  let lines := console sampleWorld ++ [LogProcessing "./original/a.jpg"]
               ++ run_console (mkRun [mkAttempt 1 95 (JpegOptions 95 true) (Ok [])]
                                     [] (Finished [] 95 1)) in
  @resizeImage SampleFS sampleBun
    (sampleSharpWith (Ok (mkMetadata (Some 800) (Some 600))) (fun _ => Ok []))
    samplePath (10 + 0) "./original/a.jpg" "./output/a.jpg" sampleWorld
  = match @write SampleFS storage "./output/a.jpg" [] (fs sampleWorld) with
    | (Throw e, fs') =>
      Throws e (mkWorld fs' (lines ++ [LogErrorProcessing "./original/a.jpg" e]))
    | (Ok _, fs') =>
      match @getSize SampleFS storage "./original/a.jpg" fs' with
      | Throw e =>
        Throws e (mkWorld fs' (lines ++ [LogErrorProcessing "./original/a.jpg" e]))
      | Ok originalSize =>
        Returns tt
          (mkWorld fs'
             (lines ++ [LogWritten "./original/a.jpg" "./output/a.jpg";
                        LogSize originalSize (byteLength []);
                        LogDimensions 800 600
                          (fst (newDimensions 800 600))
                          (snd (newDimensions 800 600));
                        LogQuality 95]))
      end
    end.
Proof.
  apply (@resizeImage_after_search SampleFS sampleBun
           (sampleSharpWith (Ok (mkMetadata (Some 800) (Some 600))) (fun _ => Ok []))
           samplePath 0 "./original/a.jpg" "./output/a.jpg" sampleWorld 800 600
           (mkRun [mkAttempt 1 95 (JpegOptions 95 true) (Ok [])] [] (Finished [] 95 1))
           [] 95 1).
  - reflexivity.
  - discriminate.
  - discriminate.
  - vm_compute. reflexivity.
  - reflexivity.
Defined.

(** The file [broken.png] of the sample world. *)
Lemma resizeImage_logs_every_error_witness :
  exists middle,
    [LogProcessing "./original/broken.png";
     LogErrorProcessing "./original/broken.png"
       "Input file contains unsupported image format"%string]
    = console sampleWorld ++ [LogProcessing "./original/broken.png"] ++ middle
      ++ [LogErrorProcessing "./original/broken.png"
            "Input file contains unsupported image format"%string].
Proof.
  apply (@resizeImage_logs_every_error SampleFS sampleBun sampleSharp samplePath
           0 "./original/broken.png" "./output/broken.png" sampleWorld
           (mkWorld []
              [LogProcessing "./original/broken.png";
               LogErrorProcessing "./original/broken.png"
                 "Input file contains unsupported image format"%string])
           "Input file contains unsupported image format"%string).
  vm_compute. reflexivity.
Defined.

(** ** [processAllImages] and the storage provider *)

Lemma append_slash (prefix rest : string) :
  ((prefix ++ "/") ++ rest)%string = (prefix ++ String "/" rest)%string.
Proof.
  induction prefix as [|c prefix IH]; cbn; [reflexivity|].
  rewrite IH. reflexivity.
Qed.

Lemma endsWithSlash_true (s : string) :
  endsWithSlash s = true -> exists prefix, s = (prefix ++ "/")%string.
Proof.
  induction s as [|c s IH]; [discriminate|].
  destruct s as [|c' s'].
  - cbn. intros Hc. apply Ascii.eqb_eq in Hc. subst c.
    exists ""%string. reflexivity.
  - intros Hs. destruct (IH Hs) as [prefix Hprefix].
    exists (String c prefix). cbn. rewrite <- Hprefix. reflexivity.
Qed.

Lemma endsWithSlash_append (prefix : string) :
  endsWithSlash (prefix ++ "/") = true.
Proof.
  induction prefix as [|c prefix IH]; [reflexivity|].
  cbn [append endsWithSlash]. rewrite IH.
  destruct (prefix ++ "/")%string eqn:E; [|reflexivity].
  destruct prefix; discriminate E.
Qed.

Section BatchEdges.

Context {FS : Type} {bun : @Bun FS} {sharp : @Sharp FS} {path : Path}.

(** [processAllImages], path by path. *)
Lemma processAllImages_paths (fuel : nat) (w : World) :
  processAllImages fuel w
  = match @ensureDestination FS storage OUTPUT_FOLDER (fs w) with
    | (Throw e, fs') =>
      Returns (Some 1)
        (mkWorld fs'
           (console w ++ [LogStarting; LogErrorCreatingOutput e; LogErrorDuring e]))
    | (Ok _, fs') =>
      let ready := console w ++ [LogStarting; LogOutputReady] in
      match Bun_Glob_scan ORIGINAL_FOLDER fs' with
      | Throw _ => Returns None (mkWorld fs' (ready ++ [LogFolderUnreadable]))
      | Ok files =>
        let imageFiles := filter isSupportedImageFormat files in
        if Z.of_nat (List.length imageFiles) =? 0
        then Returns None (mkWorld fs' (ready ++ [LogNoImages]))
        else
          match processFiles fuel imageFiles 0 0
                  (mkWorld fs'
                     (ready ++ [LogFound (Z.of_nat (List.length imageFiles))])) with
          | Returns counts w2 =>
            Returns None
              (mkWorld (fs w2) (console w2 ++ summary (fst counts) (snd counts)))
          | Throws e w2 =>
            Returns (Some 1) (mkWorld (fs w2) (console w2 ++ [LogErrorDuring e]))
          | Diverges => Diverges
          end
      end
    end.
Proof.
  unfold processAllImages, ensureOutputFolder, tryCatch, bind, log, logs, ret,
    throw, writing.
  cbn [fs console].
  destruct (@ensureDestination FS storage OUTPUT_FOLDER (fs w)) as [[[]|e] fs'];
    cbn [fs console].
  - destruct (Bun_Glob_scan ORIGINAL_FOLDER fs') as [files|e]; cbn [fs console].
    + destruct (Z.of_nat (List.length (filter isSupportedImageFormat files)) =? 0);
        cbn [fs console].
      * repeat rewrite <- app_assoc. reflexivity.
      * repeat rewrite <- app_assoc. cbn [app].
        destruct (processFiles fuel _ 0 0 _) as [counts w2|e w2|]; reflexivity.
    + repeat rewrite <- app_assoc. reflexivity.
  - repeat rewrite <- app_assoc. reflexivity.
Qed.

(** X14: [ensureDestination] of the local storage writes one empty file,
    [.gitkeep], directly inside the destination, and its result is the
    result of that write: for a destination ending in a slash the path is
    the destination followed by [.gitkeep], with no second slash; for any
    other destination, the empty one too, the path is the destination
    followed by [/.gitkeep]. *)
Theorem ensureDestination_writes_keep_file (destination : string) (files : FS) :
  (forall folder : string,
     destination = (folder ++ "/")%string ->
     @ensureDestination FS (createStorageProvider local) destination files
     = Bun_write (destination ++ ".gitkeep")%string [] files
     /\ (destination ++ ".gitkeep")%string = (folder ++ "/.gitkeep")%string)
  /\ ((forall folder : string, destination <> (folder ++ "/")%string) ->
      @ensureDestination FS (createStorageProvider local) destination files
      = Bun_write (destination ++ "/.gitkeep")%string [] files).
Proof.
  cbn [createStorageProvider ensureDestination LocalFileSystemStorage].
  split.
  - intros folder ->. rewrite endsWithSlash_append.
    split; [reflexivity | apply append_slash].
  - intros Hnone. destruct (endsWithSlash destination) eqn:Hslash; [|reflexivity].
    destruct (endsWithSlash_true destination Hslash) as [folder Hfolder].
    elim (Hnone folder Hfolder).
Qed.

(** X15: [processAllImages] always returns, and asks for exit status 1
    exactly when the output folder cannot be ensured: then the error is
    printed twice and neither the scan nor any image is started.
    Otherwise it returns without an exit status, whatever happens to the
    scan and to the images. *)
Theorem exit_status_follows_output_folder (n : nat) (w : World) :
  match @ensureDestination FS storage OUTPUT_FOLDER (fs w) with
  | (Throw e, fs') =>
    processAllImages (10 + n) w
    = Returns (Some 1)
        (mkWorld fs'
           (console w ++ [LogStarting; LogErrorCreatingOutput e; LogErrorDuring e]))
  | (Ok _, fs') =>
    exists w', processAllImages (10 + n) w = Returns None w'
  end.
Proof.
  rewrite processAllImages_paths.
  destruct (@ensureDestination FS storage OUTPUT_FOLDER (fs w)) as [[[]|e] fs'];
    [|reflexivity].
  cbn zeta.
  destruct (Bun_Glob_scan ORIGINAL_FOLDER fs') as [files|e];
    [|eexists; reflexivity].
  destruct (Z.of_nat (List.length (filter isSupportedImageFormat files)) =? 0);
    [eexists; reflexivity|].
  match goal with
  | |- context [processFiles _ ?l 0 0 ?w0] =>
    destruct (processFiles_returns n l 0 0 w0) as [p [e [w2 [Hrun _]]]]
  end.
  rewrite Hrun. eexists. reflexivity.
Qed.

(** X16: with the output folder ensured, a scan that throws is not an
    error of the program, and a scan without any supported image is not
    either: [processAllImages] prints one line saying so and returns; the
    error of the scan is not printed, no image is started, and the keep
    file is all that was written. *)
Theorem nothing_to_process (fuel : nat) (w : World) (fs1 : FS) :
  @ensureDestination FS storage OUTPUT_FOLDER (fs w) = (Ok tt, fs1) ->
  match Bun_Glob_scan ORIGINAL_FOLDER fs1 with
  | Throw _ =>
    processAllImages fuel w
    = Returns None
        (mkWorld fs1 (console w ++ [LogStarting; LogOutputReady; LogFolderUnreadable]))
  | Ok files =>
    filter isSupportedImageFormat files = [] ->
    processAllImages fuel w
    = Returns None
        (mkWorld fs1 (console w ++ [LogStarting; LogOutputReady; LogNoImages]))
  end.
Proof.
  intros Hensure. rewrite processAllImages_paths, Hensure. cbn zeta.
  destruct (Bun_Glob_scan ORIGINAL_FOLDER fs1) as [files|e].
  - intros Hnone. rewrite Hnone. cbn [List.length Z.of_nat Z.eqb].
    rewrite <- app_assoc. reflexivity.
  - rewrite <- app_assoc. reflexivity.
Qed.

End BatchEdges.

(** A folder with no image in it. *)
Lemma nothing_to_process_witness :
  match @Bun_Glob_scan SampleFS
          (sampleBunWith true true (Ok ["notes.txt"; "README.md"]%string))
          ORIGINAL_FOLDER [("./output/.gitkeep"%string, [])] with
  | Throw _ =>
    @processAllImages SampleFS
      (sampleBunWith true true (Ok ["notes.txt"; "README.md"]%string))
      sampleSharp samplePath 0 sampleWorld
    = Returns None
        (mkWorld [("./output/.gitkeep"%string, [])]
           (console sampleWorld
            ++ [LogStarting; LogOutputReady; LogFolderUnreadable]))
  | Ok files =>
    filter (@isSupportedImageFormat samplePath) files = [] ->
    @processAllImages SampleFS
      (sampleBunWith true true (Ok ["notes.txt"; "README.md"]%string))
      sampleSharp samplePath 0 sampleWorld
    = Returns None
        (mkWorld [("./output/.gitkeep"%string, [])]
           (console sampleWorld ++ [LogStarting; LogOutputReady; LogNoImages]))
  end.
Proof.
  apply (@nothing_to_process SampleFS
           (sampleBunWith true true (Ok ["notes.txt"; "README.md"]%string))
           sampleSharp samplePath 0 sampleWorld
           [("./output/.gitkeep"%string, [])]).
  reflexivity.
Defined.

(** ** The counters and the console *)

Lemma countLines_app (kind : LogLine -> bool) (a b : list LogLine) :
  countLines kind (a ++ b) = countLines kind a + countLines kind b.
Proof.
  unfold countLines. rewrite filter_app, length_app. lia.
Qed.

Lemma countLines_adjusting (kind : LogLine -> bool) (lines : list LogLine) :
  (forall q k, kind (LogAdjusting q k) = false) ->
  (forall l, In l lines -> exists q k, l = LogAdjusting q k) ->
  countLines kind lines = 0.
Proof.
  intros Hkind Hlines. unfold countLines.
  induction lines as [|l lines IH]; [reflexivity|].
  destruct (Hlines l (or_introl eq_refl)) as [q [k ->]].
  cbn [filter]. rewrite Hkind. apply IH.
  intros l' Hl'. apply Hlines. right. exact Hl'.
Qed.

Lemma qualitySearch_adjusting
    (toBuffer : OutputOptions -> result Buffer) (ext : string) (n : nat)
    (r : LoopRun) :
  qualitySearch toBuffer ext (10 + n) = Some r ->
  forall l, In l (run_console r) -> exists q k, l = LogAdjusting q k.
Proof.
  intros Hr. destruct (qualitySearch_run toBuffer ext n) as [r' [Hr' Hrun]].
  rewrite Hr in Hr'. injection Hr' as <-.
  apply (RunFrom_adjusting _ _ _ _ Hrun).
Qed.

Section CounterFacts.

Context {FS : Type} {bun : @Bun FS} {sharp : @Sharp FS} {path : Path}.

(** What one call of [resizeImage] adds to the console. *)
Lemma resizeImage_lines (n : nat) (inputPath outputPath : string) (w : World) :
  match resizeImage (10 + n) inputPath outputPath w with
  | Returns _ w' =>
    exists added, console w' = console w ++ added
                  /\ countLines isWrittenLine added = 1
                  /\ countLines isFailedFileLine added = 0
  | Throws _ w' =>
    exists added, console w' = console w ++ added
                  /\ countLines isWrittenLine added = 0
                  /\ countLines isFailedFileLine added = 0
  | Diverges => False
  end.
Proof.
  destruct (resizeImage_paths n inputPath outputPath w)
    as [[e1 [middle [Hmiddle H1]]]
       |[r [buffer [quality [attempts [width [height [Hr [Hexit
          [[e1 H1]|[size [Hok H1]]]]]]]]]]]];
    rewrite H1; cbn [console].
  - exists ([LogProcessing inputPath] ++ middle ++ [LogErrorProcessing inputPath e1]).
    split; [rewrite <- app_assoc; reflexivity|].
    rewrite !countLines_app, !(countLines_adjusting _ middle) by (auto).
    split; reflexivity.
  - pose proof (qualitySearch_adjusting _ _ _ _ Hr) as Hmiddle.
    exists ([LogProcessing inputPath] ++ run_console r
            ++ [LogErrorProcessing inputPath e1]).
    split; [rewrite <- app_assoc; reflexivity|].
    rewrite !countLines_app, !(countLines_adjusting _ (run_console r)) by (auto).
    split; reflexivity.
  - pose proof (qualitySearch_adjusting _ _ _ _ Hr) as Hmiddle.
    eexists ([LogProcessing inputPath] ++ run_console r ++ _).
    split; [rewrite <- app_assoc; reflexivity|].
    rewrite !countLines_app, !(countLines_adjusting _ (run_console r)) by (auto).
    split; reflexivity.
Qed.

(** X17: the two counters of the batch agree with the console: while the
    files are processed, [processedCount] grows by the number of
    "written" lines printed and [errorCount] by the number of "Failed to
    process" lines printed. *)
Theorem counters_match_console (n : nat) (imageFiles : list string) :
  forall (p e : Z) (w : World),
  exists (p' e' : Z) (w' : World) (added : list LogLine),
    processFiles (10 + n) imageFiles p e w = Returns (p', e') w'
    /\ console w' = console w ++ added
    /\ countLines isWrittenLine added = p' - p
    /\ countLines isFailedFileLine added = e' - e.
Proof.
  induction imageFiles as [|fileName rest IH]; intros p e w.
  - exists p, e, w, []. rewrite app_nil_r.
    repeat split; unfold countLines; cbn; lia.
  - rewrite processFiles_cons.
    pose proof (resizeImage_lines n (join ORIGINAL_FOLDER fileName)
                                  (join OUTPUT_FOLDER fileName) w) as Hlines.
    destruct (resizeImage (10 + n) _ _ w) as [[] w1|err w1|]; [| |contradiction].
    + destruct Hlines as [added1 [Hc1 [Hw1 Hf1]]].
      destruct (IH (p + 1) e w1) as [p' [e' [w' [added [Hrun [Hc [Hw Hf]]]]]]].
      exists p', e', w', (added1 ++ added).
      split; [exact Hrun|]. split; [rewrite Hc, Hc1, app_assoc; reflexivity|].
      rewrite !countLines_app. lia.
    + destruct Hlines as [added1 [Hc1 [Hw1 Hf1]]].
      destruct (IH p (e + 1)
                   (mkWorld (fs w1) (console w1 ++ [LogFailedFile fileName err])))
        as [p' [e' [w' [added [Hrun [Hc [Hw Hf]]]]]]].
      cbn [console] in Hc.
      exists p', e', w', (added1 ++ [LogFailedFile fileName err] ++ added).
      split; [exact Hrun|].
      split; [rewrite Hc, Hc1, <- !app_assoc; reflexivity|].
      rewrite !countLines_app.
      change (countLines isWrittenLine [LogFailedFile fileName err]) with 0.
      change (countLines isFailedFileLine [LogFailedFile fileName err]) with 1.
      lia.
Qed.

End CounterFacts.
